(** * Alert device client (aws-iot-greengrass-for-beginners/alert/main.py)

    A shallow embedding of the Python program: certificate lookup, the
    fallback loop over the discovered Greengrass cores, the connection
    lifecycle callbacks and the shutdown path.  The AWS SDK (awscrt, awsiot)
    is outside the program; every SDK call is recorded as an event and its
    answer is read from a [world] of oracles. *)

From Stdlib Require Import String Ascii List ZArith Bool Arith Lia.
Import ListNotations.
Local Open Scope string_scope.
Local Open Scope list_scope.

Set Implicit Arguments.

(** ** Python values the program handles *)

Module Py.

(** The argument of [sys.exit]. *)
Inductive exit_arg :=
| ExitNone
| ExitInt (n : Z)
| ExitStr (s : string).

(** A raised exception.  [Exc] stands for an instance of a class derived
    from [Exception] (the class name and the message are kept);
    [SystemExit] and [KeyboardInterrupt] derive from [BaseException]
    only, so [except Exception] does not catch them. *)
Inductive base_exception :=
| Exc (cls msg : string)
| SystemExit (code : exit_arg)
| KeyboardInterrupt.

Definition is_Exception (e : base_exception) : bool :=
  match e with
  | Exc _ _ => true
  | _ => false
  end.

(** Exit status of the interpreter when [e] reaches the top level. *)
Definition exit_status (e : base_exception) : Z :=
  match e with
  | SystemExit ExitNone => 0
  | SystemExit (ExitInt n) => n
  | SystemExit (ExitStr _) => 1
  | _ => 1
  end.

Inductive result (A : Type) :=
| Ok (a : A)
| Raise (e : base_exception).
Arguments Ok {A} a.
Arguments Raise {A} e.

Definition IndexError : base_exception :=
  Exc "IndexError" "list index out of range".

(** [l[i]] on a Python list: a negative index counts from the end, an
    index out of range raises [IndexError]. *)
Definition getitem {A} (l : list A) (i : Z) : result A :=
  let n := Z.of_nat (length l) in
  let j := if (i <? 0)%Z then (i + n)%Z else i in
  if ((j <? 0)%Z || (n <=? j)%Z)%bool then Raise IndexError
  else match nth_error l (Z.to_nat j) with
       | Some x => Ok x
       | None => Raise IndexError
       end.

(** [sub in s] on two Python strings. *)
Fixpoint contains (sub s : string) : bool :=
  (String.prefix sub s
   || match s with
      | EmptyString => false
      | String _ s' => contains sub s'
      end)%bool.

End Py.
Import Py.

(** ** The SDK's data, as far as the program reads or builds it *)

(** [awscrt.io.LogLevel], an [IntEnum]. *)
Inductive LogLevel := NoLogs | Fatal | Error | Warn | Info | Debug | Trace.

Definition LogLevel_value (l : LogLevel) : Z :=
  match l with
  | NoLogs => 0 | Fatal => 1 | Error => 2 | Warn => 3
  | Info => 4 | Debug => 5 | Trace => 6
  end%Z.

(** Levels of the standard [logging] module that the program uses. *)
Inductive logging_level := DEBUG | INFO | ERROR.

(** [awscrt.mqtt.QoS] and [awscrt.mqtt.ConnectReturnCode]. *)
Inductive QoS := AT_MOST_ONCE | AT_LEAST_ONCE | EXACTLY_ONCE.

Inductive ConnectReturnCode :=
| ACCEPTED
| UNACCEPTABLE_PROTOCOL_VERSION
| IDENTIFIER_REJECTED
| SERVER_UNAVAILABLE
| BAD_USERNAME_OR_PASSWORD
| NOT_AUTHORIZED.

Definition ConnectReturnCode_eqb (a b : ConnectReturnCode) : bool :=
  match a, b with
  | ACCEPTED, ACCEPTED
  | UNACCEPTABLE_PROTOCOL_VERSION, UNACCEPTABLE_PROTOCOL_VERSION
  | IDENTIFIER_REJECTED, IDENTIFIER_REJECTED
  | SERVER_UNAVAILABLE, SERVER_UNAVAILABLE
  | BAD_USERNAME_OR_PASSWORD, BAD_USERNAME_OR_PASSWORD
  | NOT_AUTHORIZED, NOT_AUTHORIZED => true
  | _, _ => false
  end.

(** The discovery response: groups, their cores, their connectivity
    entries, each list in the order of the response. *)
Record ConnectivityInfo := {
  host_address : string;
  port : Z
}.

Record GGCore := {
  thing_arn : string;
  connectivity : list ConnectivityInfo
}.

Record GGGroup := {
  cores : list GGCore;
  certificate_authorities : list string
}.

Record DiscoverResponse := {
  gg_groups : list GGGroup
}.

(** Objects the program builds before discovery. *)
Record ClientBootstrap := {
  event_loop_threads : Z
}.

Record SocketOptions := {
  connect_timeout_ms : Z
}.

Record ClientTlsContext := {
  tls_cert_filepath : option string;
  tls_pri_key_filepath : option string
}.

Record DiscoveryClient := {
  dc_bootstrap : ClientBootstrap;
  dc_socket_options : SocketOptions;
  dc_tls_context : ClientTlsContext;
  dc_region : option string
}.

(** The functions of the program that it hands to the SDK. *)
Inductive callback :=
| cb_on_connection_interupted
| cb_on_connection_resumed
| cb_on_resubscribe_complete
| cb_on_message_received.

(** The keyword arguments of [mqtt_connection_builder.mtls_from_path], one
    field per keyword of the call in [discover_gg_host]. *)
Record mtls_kwargs := {
  kw_endpoint : string;
  kw_port : Z;
  kw_cert_filepath : option string;
  kw_pri_key_filepath : option string;
  kw_client_bootstrap : ClientBootstrap;
  kw_ca_bytes : list Byte.byte;
  kw_on_connection_interrupted : callback;
  kw_on_connection_resumed : callback;
  kw_client_id : option string;
  kw_clean_session : bool;
  kw_keep_alive_secs : Z
}.

(** An [awscrt.mqtt.Connection]: the arguments it was built from and the
    subscriptions the object holds ([resubscribe_existing_topics] re-sends
    these). *)
Record Connection := {
  conn_kwargs : mtls_kwargs;
  conn_topics : list (string * QoS)
}.

(** What [print], [str.format] and the [%] operator are given. *)
#[warnings="-register-all"]
Inductive pyval :=
| VNone
| VBool (b : bool)
| VInt (n : Z)
| VStr (s : string)
| VExn (e : base_exception)
| VTuple (items : list pyval)
| VDict (items : list (string * pyval))
| VReturnCode (rc : ConnectReturnCode)
| VQoS (q : QoS)
| VTopics (acks : list (string * option QoS))
| VResponse (r : DiscoverResponse).

(** ** Effects *)

(** One event per output or SDK call, in program order.  Text is kept as
    the format string with its arguments. *)
Inductive event :=
| EvPrint (fmt : string) (args : list pyval)
| EvLog (level : logging_level) (fmt : string) (args : list pyval)
| EvInitLogging (level : LogLevel)
| EvSetLevel (level : logging_level)
| EvDiscover (client : DiscoveryClient) (thing_name : option string)
| EvBuild (kw : mtls_kwargs)
| EvConnect (kw : mtls_kwargs)
| EvFutureResult (timeout : option Z)
| EvSubscribe (c : Connection) (topic : string) (qos : QoS) (cb : callback)
| EvResubscribe (c : Connection)
| EvAddDoneCallback (cb : callback)
| EvDisconnect (c : Connection)
| EvPrintException (e : base_exception)
| EvSleep (seconds : Z)
| EvSysExit (code : exit_arg).

(** The module-level variables of main.py. *)
Record globals := {
  private_key_path : option string;
  certtificate_path : option string;
  root_ca_path : option string;
  device_name : option string;
  region : option string;
  mqtt_connection : option Connection
}.

Definition initial_globals : globals :=
  {| private_key_path := None; certtificate_path := None;
     root_ca_path := None; device_name := None; region := None;
     mqtt_connection := None |}.

(** The outcome of running a piece of the program: what it emitted, the
    module variables afterwards, and the value returned or the exception
    raised. *)
Record outcome (A : Type) := mkOut {
  trace : list event;
  globals_after : globals;
  value : result A
}.
Arguments mkOut {A} trace globals_after value.

Definition M (A : Type) : Type := globals -> outcome A.

Definition ret {A} (a : A) : M A := fun g => mkOut [] g (Ok a).

Definition raise {A} (e : base_exception) : M A := fun g => mkOut [] g (Raise e).

(** [t] in front of what [o] emitted. *)
Definition prepend {A} (t : list event) (o : outcome A) : outcome A :=
  match o with
  | mkOut t' g v => mkOut (t ++ t') g v
  end.

Definition bind {A B} (m : M A) (f : A -> M B) : M B :=
  fun g =>
    match m g with
    | mkOut t g1 (Ok a) => prepend t (f a g1)
    | mkOut t g1 (Raise e) => mkOut t g1 (Raise e)
    end.

Notation "x <- m ;; k" := (bind m (fun x => k))
  (at level 61, m at next level, right associativity).
Notation "m ;; k" := (bind m (fun _ => k))
  (at level 61, right associativity).

Definition emit (e : event) : M unit := fun g => mkOut [e] g (Ok tt).

Definition get_globals : M globals := fun g => mkOut [] g (Ok g).

Definition put_globals (g' : globals) : M unit := fun _ => mkOut [] g' (Ok tt).

Definition lift {A} (r : result A) : M A := fun g => mkOut [] g r.

(** [try: body / except Exception as e: handler e]. *)
Definition try_except_Exception {A} (body : M A) (handler : base_exception -> M A) : M A :=
  fun g =>
    match body g with
    | mkOut t g1 (Ok a) => mkOut t g1 (Ok a)
    | mkOut t g1 (Raise e) =>
        if is_Exception e then prepend t (handler e g1) else mkOut t g1 (Raise e)
    end.

(** [for x in xs: body x] inside a function: the body answers [Some v] when
    it executes [return v], and [None] when the iteration ends (normally
    or by [continue]). *)
Fixpoint for_each {A R} (body : A -> M (option R)) (xs : list A) : M (option R) :=
  match xs with
  | [] => ret None
  | x :: rest =>
      r <- body x ;;
      match r with
      | Some v => ret (Some v)
      | None => for_each body rest
      end
  end.

(** [sys.exit(code)]. *)
Definition sys_exit {A} (code : exit_arg) : M A :=
  emit (EvSysExit code) ;; raise (SystemExit code).

Definition print (fmt : string) (args : list pyval) : M unit :=
  emit (EvPrint fmt args).

Definition logger (level : logging_level) (fmt : string) (args : list pyval) : M unit :=
  emit (EvLog level fmt args).

(** [fmt % arg] for a format string without any conversion specifier (no
    ['%'] in [fmt]), as CPython evaluates it: a tuple supplies its items as
    arguments, a mapping or a list supplies none, any other value is one
    argument; arguments left over raise [TypeError]. *)
Definition percent_format (fmt : string) (arg : pyval) : result string :=
  let leftover :=
    match arg with
    | VTuple items => negb (Nat.eqb (length items) 0)
    | VDict _ | VTopics _ => false
    | _ => true
    end in
  if leftover
  then Raise (Exc "TypeError" "not all arguments converted during string formatting")
  else Ok fmt.

(** ** The world outside the program *)

(** The parsed command line ([argparse] restricts [verbosity] to the names
    of [LogLevel]). *)
Record Namespace := {
  thing_name : string;
  ns_region : string;
  verbosity : LogLevel
}.

(** [parse_args] is what [parser.parse_args()] does on the command line
    of the process: the namespace, or the [SystemExit] that [argparse]
    raises (status 2 after a usage error such as a missing [-n] or a
    verbosity outside the choices, status 0 after [-h]).
    [os_walk top] lists the [(dirpath, dirnames, filenames)] triples that
    [os.walk(top)] yields.  The other fields answer the SDK calls; for
    those that return [option], [None] means that the call succeeded:
    [create_client_with_mtls_from_path cert key] stands for lines 105-108
    (reading the certificate and the key and building the TLS context),
    [discovery_client_init] for the construction of the [DiscoveryClient]
    at lines 114-115. *)
Record world := {
  APP_ROOT : string;
  parse_args : result Namespace;
  os_walk : string -> list (string * list string * list string);
  create_client_with_mtls_from_path : option string -> option string -> option base_exception;
  discovery_client_init : DiscoveryClient -> option base_exception;
  discover : DiscoveryClient -> option string -> result DiscoverResponse;
  mtls_from_path : mtls_kwargs -> option base_exception;
  connect : mtls_kwargs -> option base_exception;
  subscribe : Connection -> string -> QoS -> result QoS
}.

(** [msg_or_exception] of [exit_sample]: a [str] or an exception object
    (of a class derived from [Exception] or not). *)
Inductive str_or_exception :=
| IsStr (s : string)
| IsException (e : base_exception).

Definition set_private_key_path (v : option string) (g : globals) : globals :=
  {| private_key_path := v; certtificate_path := certtificate_path g;
     root_ca_path := root_ca_path g; device_name := device_name g;
     region := region g; mqtt_connection := mqtt_connection g |}.

Definition set_certtificate_path (v : option string) (g : globals) : globals :=
  {| private_key_path := private_key_path g; certtificate_path := v;
     root_ca_path := root_ca_path g; device_name := device_name g;
     region := region g; mqtt_connection := mqtt_connection g |}.

Definition set_root_ca_path (v : option string) (g : globals) : globals :=
  {| private_key_path := private_key_path g; certtificate_path := certtificate_path g;
     root_ca_path := v; device_name := device_name g;
     region := region g; mqtt_connection := mqtt_connection g |}.

Definition set_device_name (v : option string) (g : globals) : globals :=
  {| private_key_path := private_key_path g; certtificate_path := certtificate_path g;
     root_ca_path := root_ca_path g; device_name := v;
     region := region g; mqtt_connection := mqtt_connection g |}.

Definition set_region (v : option string) (g : globals) : globals :=
  {| private_key_path := private_key_path g; certtificate_path := certtificate_path g;
     root_ca_path := root_ca_path g; device_name := device_name g;
     region := v; mqtt_connection := mqtt_connection g |}.

Definition set_mqtt_connection (v : option Connection) (g : globals) : globals :=
  {| private_key_path := private_key_path g; certtificate_path := certtificate_path g;
     root_ca_path := root_ca_path g; device_name := device_name g;
     region := region g; mqtt_connection := v |}.

(** [global x; x = v]. *)
Definition assign (set : globals -> globals) : M unit :=
  g <- get_globals ;; put_globals (set g).

(** ** The program *)

Section Program.

Variable w : world.

Definition CERT_ROOT : string := APP_ROOT w ++ "certs/".

Definition GROUP_CA_FILE : string := CERT_ROOT ++ "group_ca.pem".

(** main.py, lines 37-56. *)
Definition find_cert_file (cert_prefix : string) : M string :=
  found <- for_each (fun entry : string * list string * list string =>
             let '(_, _, names) := entry in
             for_each (fun file : string =>
               if contains cert_prefix file
               then ret (Some (CERT_ROOT ++ "/" ++ file)%string)
               else ret None) names)
           (os_walk w CERT_ROOT) ;;
  match found with
  | Some file_path => ret file_path
  | None => raise (Exc "Exception" (cert_prefix ++ " not found."))
  end.

Definition loglevel_map : list logging_level :=
  [INFO; INFO; INFO; INFO; INFO; DEBUG; DEBUG].

(** main.py, lines 59-96. *)
Definition arg_check : M unit :=
  args <- lift (parse_args w) ;;
  let log_level := verbosity args in
  emit (EvInitLogging log_level) ;;
  level <- lift (getitem loglevel_map (LogLevel_value log_level)) ;;
  emit (EvSetLevel level) ;;
  key <- find_cert_file "private.key" ;;
  assign (set_private_key_path (Some key)) ;;
  cert <- find_cert_file "cert.pem" ;;
  assign (set_certtificate_path (Some cert)) ;;
  ca <- find_cert_file "AmazonRootCA1.pem" ;;
  assign (set_root_ca_path (Some ca)) ;;
  assign (set_device_name (Some (thing_name args))) ;;
  assign (set_region (Some (ns_region args))).

(** The call of [mqtt_connection_builder.mtls_from_path] with the keyword
    arguments [kw]. *)
Definition call_mtls_from_path (kw : mtls_kwargs) : M Connection :=
  emit (EvBuild kw) ;;
  match mtls_from_path w kw with
  | Some e => raise e
  | None => ret {| conn_kwargs := kw; conn_topics := [] |}
  end.

(** [connect_future = connection.connect(); connect_future.result()]. *)
Definition call_connect (connection : Connection) : M unit :=
  emit (EvConnect (conn_kwargs connection)) ;;
  emit (EvFutureResult None) ;;
  match connect w (conn_kwargs connection) with
  | Some e => raise e
  | None => ret tt
  end.

(** The body of the innermost loop of [discover_gg_host], lines 124-152:
    [Some connection] is [return connection], [None] is [continue]. *)
Definition try_candidate (client_bootstrap : ClientBootstrap)
    (gg_group : GGGroup) (gg_core : GGCore)
    (connectivity_info : ConnectivityInfo) : M (option Connection) :=
  try_except_Exception
    (print "Trying core {} at host {} port {}"
       [VStr (thing_arn gg_core);
        VStr (host_address connectivity_info);
        VInt (port connectivity_info)] ;;
     g <- get_globals ;;
     ca <- lift (getitem (certificate_authorities gg_group) 0) ;;
     connection <- call_mtls_from_path
       {| kw_endpoint := host_address connectivity_info;
          kw_port := port connectivity_info;
          kw_cert_filepath := certtificate_path g;
          kw_pri_key_filepath := private_key_path g;
          kw_client_bootstrap := client_bootstrap;
          kw_ca_bytes := list_byte_of_string ca;
          kw_on_connection_interrupted := cb_on_connection_interupted;
          kw_on_connection_resumed := cb_on_connection_resumed;
          kw_client_id := device_name g;
          kw_clean_session := false;
          kw_keep_alive_secs := 6 |} ;;
     call_connect connection ;;
     print "Connected!" [] ;;
     ret (Some connection))
    (fun e =>
       print "Connection failed with exception {}" [VExn e] ;;
       ret None).

(** The three nested loops, lines 121-152. *)
Definition try_all (client_bootstrap : ClientBootstrap)
    (discover_response : DiscoverResponse) : M (option Connection) :=
  for_each (fun gg_group =>
    for_each (fun gg_core =>
      for_each (fun connectivity_info =>
        try_candidate client_bootstrap gg_group gg_core connectivity_info)
        (connectivity gg_core))
      (cores gg_group))
    (gg_groups discover_response).

(** main.py, lines 99-154.  The event loop group, the host resolver, the
    bootstrap and the socket options are built from constants alone. *)
Definition discover_gg_host : M Connection :=
  g <- get_globals ;;
  let client_bootstrap := {| event_loop_threads := 1 |} in
  let tls_context :=
    {| tls_cert_filepath := certtificate_path g;
       tls_pri_key_filepath := private_key_path g |} in
  match create_client_with_mtls_from_path w (certtificate_path g) (private_key_path g) with
  | Some e => raise e
  | None => ret tt
  end ;;
  let socket_options := {| connect_timeout_ms := 3000 |} in
  logger INFO "Performing greengrass discovery..." [] ;;
  let discovery_client :=
    {| dc_bootstrap := client_bootstrap;
       dc_socket_options := socket_options;
       dc_tls_context := tls_context;
       dc_region := region g |} in
  match discovery_client_init w discovery_client with
  | Some e => raise e
  | None => ret tt
  end ;;
  emit (EvDiscover discovery_client (device_name g)) ;;
  emit (EvFutureResult None) ;;
  discover_response <- lift (discover w discovery_client (device_name g)) ;;
  logger DEBUG "{}" [VResponse discover_response] ;;
  returned <- try_all client_bootstrap discover_response ;;
  match returned with
  | Some connection => ret connection
  | None => sys_exit (ExitStr "All connection attempts failed")
  end.

(** main.py, lines 157-158. *)
Definition on_connection_interupted (connection : Connection) (error : pyval) : M unit :=
  msg <- lift (percent_format "connection interrupted with error {}" error) ;;
  logger INFO msg [].

(** main.py, lines 162-174. *)
Definition on_connection_resumed (connection : Connection)
    (return_code : ConnectReturnCode) (session_present : bool) : M unit :=
  print "Connection resumed. return_code: {} session_present: {}"
    [VReturnCode return_code; VBool session_present] ;;
  if (ConnectReturnCode_eqb return_code ACCEPTED && negb session_present)%bool
  then
    print "Session did not persist. Resubscribing to existing topics..." [] ;;
    emit (EvResubscribe connection) ;;
    emit (EvAddDoneCallback cb_on_resubscribe_complete)
  else ret tt.

(** main.py, lines 177-183; [resubscribe_future] is what
    [resubscribe_future.result()] gives: the ['topics'] list of the
    result, or the exception the future holds. *)
Definition on_resubscribe_complete
    (resubscribe_future : result (list (string * option QoS))) : M unit :=
  topics <- lift resubscribe_future ;;
  print "Resubscribe results: {}" [VTopics topics] ;;
  for_each (R := unit) (fun ack : string * option QoS =>
    let '(topic, qos) := ack in
    match qos with
    | None => sys_exit (ExitStr ("Server rejected resubscribe to topic: " ++ topic))
    | Some _ => ret None
    end) topics ;;
  ret tt.

(** main.py, lines 186-187. *)
Definition on_message_received (topic : string) (payload : string) : M unit :=
  print "Alert!! Received message from topic '{}': {}" [VStr topic; VStr payload].

(** [while True: time.sleep(1)], cut after [fuel] iterations. *)
Fixpoint wait_for_events (fuel : nat) : M unit :=
  match fuel with
  | O => ret tt
  | S fuel' => emit (EvSleep 1) ;; wait_for_events fuel'
  end.

(** main.py, lines 190-208.  The connection object records the topic once
    the subscription is acknowledged. *)
Definition device_main (fuel : nat) : M unit :=
  arg_check ;;
  connection <- discover_gg_host ;;
  assign (set_mqtt_connection (Some connection)) ;;
  let topic := "alert/#" in
  emit (EvSubscribe connection topic AT_MOST_ONCE cb_on_message_received) ;;
  emit (EvFutureResult None) ;;
  granted <- lift (subscribe w connection topic AT_MOST_ONCE) ;;
  assign (set_mqtt_connection
            (Some {| conn_kwargs := conn_kwargs connection;
                     conn_topics := conn_topics connection ++ [(topic, AT_MOST_ONCE)] |})) ;;
  print "Subscribed to {} with {}" [VStr topic; VQoS granted] ;;
  wait_for_events fuel.

(** [not x] for a variable holding [None] or a [Connection] object. *)
Definition py_not (x : option Connection) : bool :=
  match x with
  | None => true
  | Some _ => false
  end.

(** [x.disconnect()] for such a variable. *)
Definition call_disconnect (x : option Connection) : M unit :=
  match x with
  | None => raise (Exc "AttributeError" "'NoneType' object has no attribute 'disconnect'")
  | Some c => emit (EvDisconnect c)
  end.

(** main.py, lines 211-233. *)
Definition exit_sample (msg_or_exception : str_or_exception) : M unit :=
  match msg_or_exception with
  | IsException e =>
      if is_Exception e
      then logger ERROR "Exiting sample due to exception." [] ;;
           emit (EvPrintException e)
      else logger INFO "Exiting: %s" [VExn e]
  | IsStr s => logger INFO "Exiting: %s" [VStr s]
  end ;;
  g <- get_globals ;;
  (if py_not (mqtt_connection g)
   then logger INFO "Disconnecting..." [] ;; call_disconnect (mqtt_connection g)
   else ret tt) ;;
  sys_exit (ExitInt 0).

(** main.py, lines 236-240: the handler installed for SIGINT. *)
Definition exit_handler : M unit :=
  exit_sample (IsStr " Key abort").

End Program.

(** ** Reading a run *)

(** The candidates of a discovery response in the order of the three
    loops: group order, then core order, then connectivity order. *)
Definition candidate : Type := GGGroup * GGCore * ConnectivityInfo.

Definition group_candidates (gg_group : GGGroup) : list candidate :=
  flat_map (fun gg_core =>
    map (fun connectivity_info => (gg_group, gg_core, connectivity_info))
        (connectivity gg_core))
    (cores gg_group).

Definition candidates (discover_response : DiscoverResponse) : list candidate :=
  flat_map group_candidates (gg_groups discover_response).

(** What the line "Trying core ..." shows of a candidate. *)
Definition label (c : candidate) : string * string * Z :=
  let '(_, gg_core, connectivity_info) := c in
  (thing_arn gg_core, host_address connectivity_info, port connectivity_info).

Definition attempt_of_event (e : event) : list (string * string * Z) :=
  match e with
  | EvPrint fmt [VStr arn; VStr host; VInt p] =>
      if String.eqb fmt "Trying core {} at host {} port {}" then [(arn, host, p)] else []
  | _ => []
  end.

(** The candidates a run announced, in order. *)
Definition attempts (t : list event) : list (string * string * Z) :=
  flat_map attempt_of_event t.

Definition failure_of_event (e : event) : list base_exception :=
  match e with
  | EvPrint fmt [VExn x] =>
      if String.eqb fmt "Connection failed with exception {}" then [x] else []
  | _ => []
  end.

(** The failure reasons the [except] clause printed, in order. *)
Definition failure_reasons (t : list event) : list base_exception :=
  flat_map failure_of_event t.

Definition is_transport_call (e : event) : bool :=
  match e with
  | EvBuild _ | EvConnect _ => true
  | _ => false
  end.

(** The calls to the MQTT transport in a run. *)
Definition transport_calls (t : list event) : list event :=
  filter is_transport_call t.

(** The keyword arguments [discover_gg_host] passes for a candidate whose
    group lists [ca] first among its certificate authorities. *)
Definition kwargs_for (g : globals) (client_bootstrap : ClientBootstrap)
    (connectivity_info : ConnectivityInfo) (ca : string) : mtls_kwargs :=
  {| kw_endpoint := host_address connectivity_info;
     kw_port := port connectivity_info;
     kw_cert_filepath := certtificate_path g;
     kw_pri_key_filepath := private_key_path g;
     kw_client_bootstrap := client_bootstrap;
     kw_ca_bytes := list_byte_of_string ca;
     kw_on_connection_interrupted := cb_on_connection_interupted;
     kw_on_connection_resumed := cb_on_connection_resumed;
     kw_client_id := device_name g;
     kw_clean_session := false;
     kw_keep_alive_secs := 6 |}.

(** How the world answers an attempt on a candidate: the transport yields
    a connection, or the attempt ends in an exception that
    [except Exception] catches ([Fails]) or does not catch. *)
Inductive verdict :=
| Connects (c : Connection)
| Fails (e : base_exception)
| Propagates (e : base_exception).

Definition verdict_of_exception (e : base_exception) : verdict :=
  if is_Exception e then Fails e else Propagates e.

Definition verdict_of (w : world) (g : globals) (client_bootstrap : ClientBootstrap)
    (c : candidate) : verdict :=
  let '(gg_group, _, connectivity_info) := c in
  match certificate_authorities gg_group with
  | [] => Fails IndexError
  | ca :: _ =>
      let kw := kwargs_for g client_bootstrap connectivity_info ca in
      match mtls_from_path w kw with
      | Some e => verdict_of_exception e
      | None =>
          match connect w kw with
          | Some e => verdict_of_exception e
          | None => Connects {| conn_kwargs := kw; conn_topics := [] |}
          end
      end
  end.

(** The loop body on a candidate triple. *)
Definition try_one (w : world) (client_bootstrap : ClientBootstrap)
    (c : candidate) : M (option Connection) :=
  let '(gg_group, gg_core, connectivity_info) := c in
  try_candidate w client_bootstrap gg_group gg_core connectivity_info.

(** The bootstrap and the discovery client that [discover_gg_host] builds
    from the module variables. *)
Definition the_bootstrap : ClientBootstrap := {| event_loop_threads := 1 |}.

Definition client_of (g : globals) : DiscoveryClient :=
  {| dc_bootstrap := the_bootstrap;
     dc_socket_options := {| connect_timeout_ms := 3000 |};
     dc_tls_context :=
       {| tls_cert_filepath := certtificate_path g;
          tls_pri_key_filepath := private_key_path g |};
     dc_region := region g |}.

(** What [discover_gg_host] emits before its loops when discovery answers
    [discover_response]. *)
Definition discovery_events (g : globals) (discover_response : DiscoverResponse) : list event :=
  [EvLog INFO "Performing greengrass discovery..." [];
   EvDiscover (client_of g) (device_name g);
   EvFutureResult None;
   EvLog DEBUG "{}" [VResponse discover_response]].

Definition trying (c : candidate) : event :=
  let '(arn, host, p) := label c in
  EvPrint "Trying core {} at host {} port {}" [VStr arn; VStr host; VInt p].

Definition failed (e : base_exception) : event :=
  EvPrint "Connection failed with exception {}" [VExn e].

(** The transport calls of one attempt: none when the group has no
    certificate authority, the builder alone when the builder raises. *)
Definition transport_events (w : world) (g : globals)
    (client_bootstrap : ClientBootstrap) (c : candidate) : list event :=
  let '(gg_group, _, connectivity_info) := c in
  match certificate_authorities gg_group with
  | [] => []
  | ca :: _ =>
      let kw := kwargs_for g client_bootstrap connectivity_info ca in
      match mtls_from_path w kw with
      | Some _ => [EvBuild kw]
      | None => [EvBuild kw; EvConnect kw; EvFutureResult None]
      end
  end.


(** The end of [discover_gg_host] once the loops are over: [return
    connection] out of the loops, or [sys.exit] after them. *)
Definition after_loops (o : outcome (option Connection)) : outcome Connection :=
  match value o with
  | Ok (Some connection) => mkOut (trace o) (globals_after o) (Ok connection)
  | Ok None =>
      mkOut (trace o ++ [EvSysExit (ExitStr "All connection attempts failed")])
            (globals_after o)
            (Raise (SystemExit (ExitStr "All connection attempts failed")))
  | Raise e => mkOut (trace o) (globals_after o) (Raise e)
  end.

Definition has_certificate_authority (gg_group : GGGroup) : bool :=
  match certificate_authorities gg_group with
  | [] => false
  | _ :: _ => true
  end.

(** The response without the groups that list no certificate authority. *)
Definition drop_groups_without_ca (r : DiscoverResponse) : DiscoverResponse :=
  {| gg_groups := filter has_certificate_authority (gg_groups r) |}.

(** ** Sample inputs *)

Module Sample.

Definition hostA : ConnectivityInfo := {| host_address := "hostA"; port := 1234 |}.
Definition hostB : ConnectivityInfo := {| host_address := "hostB"; port := 5678 |}.
Definition hostC : ConnectivityInfo := {| host_address := "hostC"; port := 8883 |}.

Definition core1 : GGCore :=
  {| thing_arn := "arn:aws:iot:core1"; connectivity := [hostA; hostB] |}.
Definition core2 : GGCore :=
  {| thing_arn := "arn:aws:iot:core2"; connectivity := [hostC] |}.

Definition group1 : GGGroup :=
  {| cores := [core1; core2]; certificate_authorities := ["-----BEGIN CERTIFICATE-----"] |}.

(** A group whose list of certificate authorities is empty. *)
Definition bare_group : GGGroup :=
  {| cores := [core2]; certificate_authorities := [] |}.

Definition response : DiscoverResponse := {| gg_groups := [group1] |}.
Definition bare_response : DiscoverResponse := {| gg_groups := [bare_group; group1] |}.
Definition empty_response : DiscoverResponse := {| gg_groups := [] |}.
Definition single_response : DiscoverResponse :=
  {| gg_groups := [ {| cores := [core2]; certificate_authorities := ["CA"] |} ] |}.

Definition timed_out : base_exception := Exc "AwsCrtError" "AWS_IO_SOCKET_TIMEOUT".

Definition files : list string :=
  ["alert.cert.pem"; "alert.private.key"; "AmazonRootCA1.pem"].

Definition args : Namespace :=
  {| thing_name := "alert-device"; ns_region := "ap-northeast-1"; verbosity := NoLogs |}.

(** Reading the certificate and the key succeeds when both paths are
    strings that name files among [paths]. *)
Definition read_from (paths : list string) (cert key : option string) : option base_exception :=
  match cert, key with
  | Some c, Some k =>
      if (existsb (String.eqb c) paths && existsb (String.eqb k) paths)%bool
      then None
      else Some (Exc "FileNotFoundError" "[Errno 2] No such file or directory")
  | _, _ => Some (Exc "AssertionError" "")
  end.

(** The discovery client wants a region that is a string. *)
Definition wants_region (client : DiscoveryClient) : option base_exception :=
  match dc_region client with
  | Some _ => None
  | None => Some (Exc "AssertionError" "")
  end.

(** The files of the certificate directory as [find_cert_file] names
    them. *)
Definition in_certs (names : list string) : list string :=
  map (fun name => "/home/pi/alert/certs//" ++ name)%string names.

(** Discovery answers [r]; only hostB accepts the connection, the others
    time out; the certificate directory holds [names]. *)
Definition world_with (r : DiscoverResponse) (names : list string) : world :=
  {| APP_ROOT := "/home/pi/alert/";
     parse_args := Ok args;
     os_walk := fun top => [(top, [], names)];
     create_client_with_mtls_from_path := read_from (in_certs names);
     discovery_client_init := wants_region;
     discover := fun _ _ => Ok r;
     mtls_from_path := fun _ => None;
     connect := fun kw =>
       if String.eqb (kw_endpoint kw) "hostB" then None else Some timed_out;
     subscribe := fun _ _ qos => Ok qos |}.

(** The same with every connection timing out. *)
Definition dead_world (r : DiscoverResponse) : world :=
  {| APP_ROOT := "/home/pi/alert/";
     parse_args := Ok args;
     os_walk := fun top => [(top, [], files)];
     create_client_with_mtls_from_path := read_from (in_certs files);
     discovery_client_init := wants_region;
     discover := fun _ _ => Ok r;
     mtls_from_path := fun _ => None;
     connect := fun _ => Some timed_out;
     subscribe := fun _ _ qos => Ok qos |}.

(** The module variables once [arg_check] has run on [files]. *)
Definition ready : globals :=
  {| private_key_path := Some "/home/pi/alert/certs//alert.private.key";
     certtificate_path := Some "/home/pi/alert/certs//alert.cert.pem";
     root_ca_path := Some "/home/pi/alert/certs//AmazonRootCA1.pem";
     device_name := Some "alert-device";
     region := Some "ap-northeast-1";
     mqtt_connection := None |}.

Definition live : Connection :=
  {| conn_kwargs := kwargs_for initial_globals the_bootstrap hostB "CA";
     conn_topics := [("alert/#", AT_MOST_ONCE)] |}.

Definition two_topics : Connection :=
  {| conn_kwargs := kwargs_for initial_globals the_bootstrap hostB "CA";
     conn_topics := [("alert/#", AT_MOST_ONCE); ("status/#", AT_LEAST_ONCE)] |}.

End Sample.

(** ** Observers of the callbacks and of start-up *)

Definition resubscribe_of_event (e : event) : list Connection :=
  match e with
  | EvResubscribe c => [c]
  | _ => []
  end.

(** The calls of [resubscribe_existing_topics] in a run, each with the
    connection it was made on. *)
Definition resubscribe_calls (t : list event) : list Connection :=
  flat_map resubscribe_of_event t.

Definition exit_of_event (e : event) : list exit_arg :=
  match e with
  | EvSysExit code => [code]
  | _ => []
  end.

(** The calls of [sys.exit] in a run, each with its argument. *)
Definition exit_calls (t : list event) : list exit_arg :=
  flat_map exit_of_event t.

(** An acknowledgment that grants no quality of service. *)
Definition rejected (ack : string * option QoS) : bool :=
  match snd ack with
  | None => true
  | Some _ => false
  end.

Definition rejection_message (topic : string) : exit_arg :=
  ExitStr ("Server rejected resubscribe to topic: " ++ topic).

(** File names under the certificate directory, in the order [os.walk]
    yields them. *)
Definition file_names (w : world) : list string :=
  flat_map (fun entry : string * list string * list string => snd entry)
           (os_walk w (CERT_ROOT w)).

(** The first file name that contains [cert_prefix]. *)
Definition locate (w : world) (cert_prefix : string) : option string :=
  find (contains cert_prefix) (file_names w).

Definition required_names : list string :=
  ["private.key"; "cert.pem"; "AmazonRootCA1.pem"].

Definition not_found (cert_prefix : string) : base_exception :=
  Exc "Exception" (cert_prefix ++ " not found.").

Definition is_network_event (e : event) : bool :=
  match e with
  | EvDiscover _ _ | EvBuild _ | EvConnect _ | EvFutureResult _
  | EvSubscribe _ _ _ _ | EvResubscribe _ | EvDisconnect _ => true
  | _ => false
  end.

(** The calls of a run that reach the network. *)
Definition network_events (t : list event) : list event :=
  filter is_network_event t.

(** The level [arg_check] gives the logger for a verbosity. *)
Definition logger_level (v : LogLevel) : logging_level :=
  match v with
  | Debug | Trace => DEBUG
  | _ => INFO
  end.

Definition is_disconnect (e : event) : bool :=
  match e with
  | EvDisconnect _ => true
  | _ => false
  end.

(** The path [find_cert_file] builds for a file name. *)
Definition cert_path (w : world) (file : string) : string :=
  CERT_ROOT w ++ "/" ++ file.


(** Set-up succeeds and discovery answers [discover_response]: the TLS
    context is built from the two paths, the discovery client is
    constructed, and the discovery future yields the response. *)
Definition discovery_answers (w : world) (g : globals)
    (discover_response : DiscoverResponse) : Prop :=
  create_client_with_mtls_from_path w (certtificate_path g) (private_key_path g) = None /\
  discovery_client_init w (client_of g) = None /\
  discover w (client_of g) (device_name g) = Ok discover_response.

(** The file names of the certificate directory itself: [os.walk] yields
    the top directory first. *)
Definition directory_files (w : world) : list string :=
  match os_walk w (CERT_ROOT w) with
  | (_, _, names) :: _ => names
  | [] => []
  end.

Definition pyval_of_exit_arg (code : exit_arg) : list pyval :=
  match code with
  | ExitNone => []
  | ExitInt n => [VInt n]
  | ExitStr s => [VStr s]
  end.

(** What an exception object carries: its [args]. *)
Definition exception_args (e : base_exception) : list pyval :=
  match e with
  | Exc _ msg => [VStr msg]
  | SystemExit code => pyval_of_exit_arg code
  | KeyboardInterrupt => []
  end.

(** The transport calls the world makes of the attempt on a candidate. *)
Definition transport_calls_of (w : world) (g : globals)
    (client_bootstrap : ClientBootstrap) (c : candidate) : list event :=
  transport_calls (transport_events w g client_bootstrap c).


(** ** Further observers and sample inputs *)

Definition build_of_event (e : event) : list mtls_kwargs :=
  match e with
  | EvBuild kw => [kw]
  | _ => []
  end.

(** The keyword arguments of the builder calls of a run, in order. *)
Definition builds (t : list event) : list mtls_kwargs :=
  flat_map build_of_event t.

Definition is_subscribe (e : event) : bool :=
  match e with
  | EvSubscribe _ _ _ _ => true
  | _ => false
  end.

(** What [device_main] emits once [discover_gg_host] has returned
    [connection] and the broker has granted [granted]. *)
Definition subscription_events (connection : Connection) (granted : QoS) : list event :=
  [EvSubscribe connection "alert/#" AT_MOST_ONCE cb_on_message_received;
   EvFutureResult None;
   EvPrint "Subscribed to {} with {}" [VStr "alert/#"; VQoS granted]].

(** The connection object once it holds the alert subscription. *)
Definition subscribed (connection : Connection) : Connection :=
  {| conn_kwargs := conn_kwargs connection;
     conn_topics := conn_topics connection ++ [("alert/#", AT_MOST_ONCE)] |}.

Module Walks.

(** The certificate files sit in a sub-directory of the certificate
    directory. *)
Definition nested (r : DiscoverResponse) : world :=
  {| APP_ROOT := "/home/pi/alert/";
     parse_args := Ok Sample.args;
     os_walk := fun top =>
       [(top, ["device"], []); ((top ++ "device")%string, [], Sample.files)];
     create_client_with_mtls_from_path :=
       Sample.read_from
         (map (fun name => "/home/pi/alert/certs/device/" ++ name)%string Sample.files);
     discovery_client_init := Sample.wants_region;
     discover := fun _ _ => Ok r;
     mtls_from_path := fun _ => None;
     connect := fun _ => None;
     subscribe := fun _ _ qos => Ok qos |}.

(** Two certificates in the directory. *)
Definition two_certs : list string :=
  ["old.cert.pem"; "alert.private.key"; "new.cert.pem"; "AmazonRootCA1.pem"].

(** Discovery itself fails. *)
Definition unreachable : world :=
  {| APP_ROOT := "/home/pi/alert/";
     parse_args := Ok Sample.args;
     os_walk := fun top => [(top, [], Sample.files)];
     create_client_with_mtls_from_path := Sample.read_from (Sample.in_certs Sample.files);
     discovery_client_init := Sample.wants_region;
     discover := fun _ _ => Raise (Exc "DiscoveryException" "Error during discover call");
     mtls_from_path := fun _ => None;
     connect := fun _ => None;
     subscribe := fun _ _ qos => Ok qos |}.

(** hostA times out, and the attempt on hostB is interrupted from the
    keyboard. *)
Definition interrupted (r : DiscoverResponse) : world :=
  {| APP_ROOT := "/home/pi/alert/";
     parse_args := Ok Sample.args;
     os_walk := fun top => [(top, [], Sample.files)];
     create_client_with_mtls_from_path := Sample.read_from (Sample.in_certs Sample.files);
     discovery_client_init := Sample.wants_region;
     discover := fun _ _ => Ok r;
     mtls_from_path := fun _ => None;
     connect := fun kw =>
       if String.eqb (kw_endpoint kw) "hostB" then Some KeyboardInterrupt
       else Some Sample.timed_out;
     subscribe := fun _ _ qos => Ok qos |}.

(** Only hostB accepts, and the broker refuses the subscription. *)
Definition refusing (r : DiscoverResponse) : world :=
  {| APP_ROOT := "/home/pi/alert/";
     parse_args := Ok Sample.args;
     os_walk := fun top => [(top, [], Sample.files)];
     create_client_with_mtls_from_path := Sample.read_from (Sample.in_certs Sample.files);
     discovery_client_init := Sample.wants_region;
     discover := fun _ _ => Ok r;
     mtls_from_path := fun _ => None;
     connect := fun kw =>
       if String.eqb (kw_endpoint kw) "hostB" then None else Some Sample.timed_out;
     subscribe := fun _ _ _ => Raise (Exc "AwsCrtError" "AWS_ERROR_MQTT_TIMEOUT") |}.

(** A group with no core, and a core with no connectivity entry. *)
Definition hollow_group : GGGroup :=
  {| cores := [ {| thing_arn := "arn:aws:iot:core0"; connectivity := [] |} ];
     certificate_authorities := ["CA"] |}.

(** A group that lists a second certificate authority. *)
Definition group1_two_cas : GGGroup :=
  {| cores := cores Sample.group1;
     certificate_authorities := ["-----BEGIN CERTIFICATE-----"; "second"] |}.

(** The command line lacks the thing name: [argparse] prints the usage
    and exits with status 2. *)
Definition no_thing_name : world :=
  {| APP_ROOT := "/home/pi/alert/";
     parse_args := Raise (SystemExit (ExitInt 2));
     os_walk := fun top => [(top, [], Sample.files)];
     create_client_with_mtls_from_path := Sample.read_from (Sample.in_certs Sample.files);
     discovery_client_init := Sample.wants_region;
     discover := fun _ _ => Ok Sample.response;
     mtls_from_path := fun _ => None;
     connect := fun _ => None;
     subscribe := fun _ _ qos => Ok qos |}.

End Walks.

(** ** Loops *)

Lemma outcome_eta {A} (o : outcome A) :
  mkOut (trace o) (globals_after o) (value o) = o.
Proof. destruct o; reflexivity. Qed.

Lemma prepend_unfold {A} (t : list event) (o : outcome A) :
  prepend t o = mkOut (t ++ trace o) (globals_after o) (value o).
Proof. destruct o; reflexivity. Qed.

Lemma prepend_nil {A} (o : outcome A) : prepend [] o = o.
Proof. destruct o; reflexivity. Qed.

Lemma prepend_prepend {A} (t1 t2 : list event) (o : outcome A) :
  prepend t1 (prepend t2 o) = prepend (t1 ++ t2) o.
Proof. destruct o; unfold prepend. now rewrite app_assoc. Qed.

Lemma trace_prepend {A} (t : list event) (o : outcome A) :
  trace (prepend t o) = t ++ trace o.
Proof. destruct o; reflexivity. Qed.

Lemma value_prepend {A} (t : list event) (o : outcome A) :
  value (prepend t o) = value o.
Proof. destruct o; reflexivity. Qed.

Lemma globals_prepend {A} (t : list event) (o : outcome A) :
  globals_after (prepend t o) = globals_after o.
Proof. destruct o; reflexivity. Qed.

(** One step of a sequence, by the outcome of its first statement. *)
Lemma bind_ok {A B} (m : M A) (f : A -> M B) g t g1 a :
  m g = mkOut t g1 (Ok a) -> bind m f g = prepend t (f a g1).
Proof. intros H. unfold bind. now rewrite H. Qed.

Lemma bind_raise {A B} (m : M A) (f : A -> M B) g t g1 e :
  m g = mkOut t g1 (Raise e) -> bind m f g = mkOut t g1 (Raise e).
Proof. intros H. unfold bind. now rewrite H. Qed.

Lemma bind_emit {B} (e : event) (k : unit -> M B) g :
  bind (emit e) k g = prepend [e] (k tt g).
Proof. reflexivity. Qed.

Lemma bind_get_globals {B} (k : globals -> M B) g :
  bind get_globals k g = k g g.
Proof. unfold bind, get_globals. apply prepend_nil. Qed.

Lemma bind_ret {A B} (a : A) (k : A -> M B) g :
  bind (ret a) k g = k a g.
Proof. unfold bind, ret. apply prepend_nil. Qed.

Lemma bind_lift_ok {A B} (a : A) (k : A -> M B) g :
  bind (lift (Ok a)) k g = k a g.
Proof. unfold bind, lift. apply prepend_nil. Qed.

Lemma bind_lift_raise {A B} (e : base_exception) (k : A -> M B) g :
  bind (lift (Raise e)) k g = mkOut [] g (Raise e).
Proof. reflexivity. Qed.

Lemma bind_assign {B} (set : globals -> globals) (k : unit -> M B) g :
  bind (assign set) k g = k tt (set g).
Proof. unfold assign, bind, get_globals, put_globals, prepend. apply prepend_nil. Qed.

Lemma for_each_continue {A R} (body : A -> M (option R)) x rest g :
  value (body x g) = Ok None ->
  for_each body (x :: rest) g =
  prepend (trace (body x g)) (for_each body rest (globals_after (body x g))).
Proof.
  intros H. cbn [for_each]. unfold bind.
  destruct (body x g) as [t g1 v]. cbn [value trace globals_after] in *.
  now subst v.
Qed.

Lemma for_each_return {A R} (body : A -> M (option R)) x rest g v :
  value (body x g) = Ok (Some v) ->
  for_each body (x :: rest) g =
  mkOut (trace (body x g)) (globals_after (body x g)) (Ok (Some v)).
Proof.
  intros H. cbn [for_each]. unfold bind.
  destruct (body x g) as [t g1 r]. cbn [value trace globals_after] in *.
  subst r. unfold ret, prepend. now rewrite app_nil_r.
Qed.

Lemma for_each_raise {A R} (body : A -> M (option R)) x rest g e :
  value (body x g) = Raise e ->
  for_each body (x :: rest) g =
  mkOut (trace (body x g)) (globals_after (body x g)) (Raise e).
Proof.
  intros H. cbn [for_each]. unfold bind.
  destruct (body x g) as [t g1 r]. cbn [value trace globals_after] in *.
  now subst r.
Qed.

Lemma for_each_ext {A R} (body1 body2 : A -> M (option R)) xs :
  (forall x g, body1 x g = body2 x g) ->
  forall g, for_each body1 xs g = for_each body2 xs g.
Proof.
  intros Hext. induction xs as [|x rest IH]; intros g; [reflexivity|].
  cbn [for_each]. unfold bind. rewrite Hext.
  destruct (body2 x g) as [t g1 [[v|]|e]]; try reflexivity.
  now rewrite IH.
Qed.

Lemma for_each_map {A B R} (h : A -> B) (body : B -> M (option R)) xs g :
  for_each body (map h xs) g = for_each (fun x => body (h x)) xs g.
Proof.
  revert g. induction xs as [|x rest IH]; intros g; [reflexivity|].
  cbn [for_each map]. unfold bind.
  destruct (body (h x) g) as [t g1 [[v|]|e]]; try reflexivity.
  now rewrite IH.
Qed.

Lemma for_each_app {A R} (body : A -> M (option R)) xs ys g :
  for_each body (xs ++ ys) g =
  match value (for_each body xs g) with
  | Ok None =>
      prepend (trace (for_each body xs g))
              (for_each body ys (globals_after (for_each body xs g)))
  | _ => for_each body xs g
  end.
Proof.
  revert g. induction xs as [|x rest IH]; intros g.
  - cbn [app for_each ret value trace globals_after]. now rewrite prepend_nil.
  - rewrite <- app_comm_cons.
    destruct (value (body x g)) as [[v|]|e] eqn:Hx.
    + rewrite !(for_each_return _ _ _ _ Hx). reflexivity.
    + rewrite !(for_each_continue _ _ _ _ Hx), IH.
      rewrite value_prepend, trace_prepend, globals_prepend.
      destruct (value (for_each body rest (globals_after (body x g)))) as [[v|]|e];
        try reflexivity.
      now rewrite prepend_prepend.
    + rewrite !(for_each_raise _ _ _ _ Hx). reflexivity.
Qed.

(** A loop nested in a loop runs its body over the concatenated lists. *)
Lemma for_each_flat_map {A B R} (f : A -> list B) (body : B -> M (option R)) xs g :
  for_each (fun x => for_each body (f x)) xs g = for_each body (flat_map f xs) g.
Proof.
  revert g. induction xs as [|x rest IH]; intros g; [reflexivity|].
  cbn [flat_map]. rewrite for_each_app.
  cbn [for_each]. unfold bind.
  destruct (for_each body (f x) g) as [t g1 [[v|]|e]]; cbn [value trace globals_after].
  - unfold ret, prepend. now rewrite app_nil_r.
  - now rewrite IH.
  - reflexivity.
Qed.

(** The three loops of [discover_gg_host] visit [candidates] in order. *)
Lemma try_all_candidates w client_bootstrap discover_response g :
  try_all w client_bootstrap discover_response g =
  for_each (try_one w client_bootstrap) (candidates discover_response) g.
Proof.
  unfold try_all, candidates, group_candidates.
  rewrite <- for_each_flat_map.
  apply for_each_ext. intros gg_group g1.
  rewrite <- for_each_flat_map.
  apply for_each_ext. intros gg_core g2.
  now rewrite for_each_map.
Qed.

(** ** One candidate *)

Lemma getitem_head {A} (x : A) (l : list A) : getitem (x :: l) 0 = Ok x.
Proof.
  unfold getitem. cbn [Z.ltb Z.compare length].
  replace (Z.of_nat (S (length l)) <=? 0)%Z with false;
    [reflexivity | symmetry; apply Z.leb_gt; lia].
Qed.

Lemma getitem_nil {A} (i : Z) : getitem (@nil A) i = Raise IndexError.
Proof.
  unfold getitem. cbn [length Z.of_nat].
  destruct (i <? 0)%Z eqn:Hi.
  - rewrite Z.add_0_r, Hi. reflexivity.
  - replace (0 <=? i)%Z with true; [now rewrite orb_true_r|].
    symmetry. apply Z.leb_le. apply Z.ltb_ge in Hi. exact Hi.
Qed.

Lemma call_mtls_from_path_run w kw g :
  call_mtls_from_path w kw g =
  match mtls_from_path w kw with
  | Some e => mkOut [EvBuild kw] g (Raise e)
  | None => mkOut [EvBuild kw] g (Ok {| conn_kwargs := kw; conn_topics := [] |})
  end.
Proof.
  unfold call_mtls_from_path. rewrite bind_emit.
  destruct (mtls_from_path w kw); reflexivity.
Qed.

Lemma call_connect_run w connection g :
  call_connect w connection g =
  match connect w (conn_kwargs connection) with
  | Some e =>
      mkOut [EvConnect (conn_kwargs connection); EvFutureResult None] g (Raise e)
  | None =>
      mkOut [EvConnect (conn_kwargs connection); EvFutureResult None] g (Ok tt)
  end.
Proof.
  unfold call_connect. rewrite !bind_emit.
  destruct (connect w (conn_kwargs connection)); reflexivity.
Qed.

(** The loop body, case by case of the world's answer. *)
Lemma try_one_spec w client_bootstrap c g :
  try_one w client_bootstrap c g =
  match verdict_of w g client_bootstrap c with
  | Connects conn =>
      mkOut (trying c :: transport_events w g client_bootstrap c
               ++ [EvPrint "Connected!" []]) g (Ok (Some conn))
  | Fails e =>
      mkOut (trying c :: transport_events w g client_bootstrap c ++ [failed e])
            g (Ok None)
  | Propagates e =>
      mkOut (trying c :: transport_events w g client_bootstrap c) g (Raise e)
  end.
Proof.
  destruct c as [[gg_group gg_core] connectivity_info].
  unfold try_one, try_candidate, verdict_of, transport_events, trying, label,
    try_except_Exception, print.
  rewrite bind_emit, bind_get_globals.
  destruct (certificate_authorities gg_group) as [|ca cas].
  - rewrite getitem_nil, bind_lift_raise. reflexivity.
  - rewrite getitem_head, bind_lift_ok.
    fold (kwargs_for g client_bootstrap connectivity_info ca).
    set (kw := kwargs_for g client_bootstrap connectivity_info ca).
    unfold bind at 1. rewrite call_mtls_from_path_run.
    destruct (mtls_from_path w kw) as [e|].
    + unfold verdict_of_exception, prepend. destruct (is_Exception e);
        reflexivity.
    + unfold bind at 1. rewrite call_connect_run. cbn [conn_kwargs].
      destruct (connect w kw) as [e|].
      * unfold verdict_of_exception, prepend. destruct (is_Exception e);
          reflexivity.
      * rewrite bind_emit. reflexivity.
Qed.

Lemma attempts_app t1 t2 : attempts (t1 ++ t2) = attempts t1 ++ attempts t2.
Proof. apply flat_map_app. Qed.

Lemma failure_reasons_app t1 t2 :
  failure_reasons (t1 ++ t2) = failure_reasons t1 ++ failure_reasons t2.
Proof. apply flat_map_app. Qed.

Lemma transport_events_quiet w g client_bootstrap c :
  attempts (transport_events w g client_bootstrap c) = [] /\
  failure_reasons (transport_events w g client_bootstrap c) = [].
Proof.
  destruct c as [[gg_group gg_core] connectivity_info]. unfold transport_events.
  destruct (certificate_authorities gg_group); [now split|].
  destruct (mtls_from_path w _); now split.
Qed.

Lemma attempts_trying c : attempts [trying c] = [label c].
Proof.
  unfold trying. destruct (label c) as [[arn host] p]. reflexivity.
Qed.

Lemma failure_reasons_trying c : failure_reasons [trying c] = [].
Proof.
  unfold trying. destruct (label c) as [[arn host] p]. reflexivity.
Qed.

Lemma value_try_one w client_bootstrap c g :
  value (try_one w client_bootstrap c g) =
  match verdict_of w g client_bootstrap c with
  | Connects conn => Ok (Some conn)
  | Fails _ => Ok None
  | Propagates e => Raise e
  end.
Proof.
  rewrite try_one_spec. now destruct (verdict_of w g client_bootstrap c).
Qed.

Lemma globals_try_one w client_bootstrap c g :
  globals_after (try_one w client_bootstrap c g) = g.
Proof.
  rewrite try_one_spec. now destruct (verdict_of w g client_bootstrap c).
Qed.

Lemma attempts_try_one w client_bootstrap c g :
  attempts (trace (try_one w client_bootstrap c g)) = [label c].
Proof.
  rewrite try_one_spec.
  destruct (transport_events_quiet w g client_bootstrap c) as [Hq _].
  destruct (verdict_of w g client_bootstrap c); cbn [trace];
    change (trying c :: ?t) with ([trying c] ++ t);
    rewrite ?attempts_app, attempts_trying, Hq; reflexivity.
Qed.

Lemma failure_reasons_try_one w client_bootstrap c g :
  failure_reasons (trace (try_one w client_bootstrap c g)) =
  match verdict_of w g client_bootstrap c with
  | Fails e => [e]
  | _ => []
  end.
Proof.
  rewrite try_one_spec.
  destruct (transport_events_quiet w g client_bootstrap c) as [_ Hq].
  destruct (verdict_of w g client_bootstrap c); cbn [trace];
    change (trying c :: ?t) with ([trying c] ++ t);
    rewrite ?failure_reasons_app, failure_reasons_trying, Hq; reflexivity.
Qed.

Lemma transport_calls_app t1 t2 :
  transport_calls (t1 ++ t2) = transport_calls t1 ++ transport_calls t2.
Proof. apply filter_app. Qed.

Lemma trying_not_transport c : is_transport_call (trying c) = false.
Proof. unfold trying. now destruct (label c) as [[arn host] p]. Qed.

(** The transport calls of an attempt are those the world's answers
    dictate. *)
Lemma transport_calls_try_one w client_bootstrap c g :
  transport_calls (trace (try_one w client_bootstrap c g)) =
  transport_calls_of w g client_bootstrap c.
Proof.
  rewrite try_one_spec. unfold transport_calls_of.
  assert (Hy : transport_calls [trying c] = []).
  { unfold transport_calls. cbn [filter]. now rewrite trying_not_transport. }
  destruct (verdict_of w g client_bootstrap c); cbn [trace];
    change (trying c :: ?t) with ([trying c] ++ t);
    rewrite ?transport_calls_app, Hy, ?app_nil_r; reflexivity.
Qed.

(** An accepted candidate costs one builder call and one connect call. *)
Lemma transport_calls_connects w g client_bootstrap c conn :
  verdict_of w g client_bootstrap c = Connects conn ->
  transport_calls_of w g client_bootstrap c =
    [EvBuild (conn_kwargs conn); EvConnect (conn_kwargs conn)].
Proof.
  destruct c as [[gg_group gg_core] connectivity_info].
  unfold verdict_of, transport_calls_of, transport_events.
  destruct (certificate_authorities gg_group) as [|ca rest]; [discriminate|].
  destruct (mtls_from_path w _) as [e|].
  { unfold verdict_of_exception. destruct (is_Exception e); discriminate. }
  destruct (connect w _) as [e|].
  { unfold verdict_of_exception. destruct (is_Exception e); discriminate. }
  intros H. injection H as <-. reflexivity.
Qed.

(** ** The fallback loop *)

Section Fallback.

Variable w : world.
Variable g : globals.
Variable client_bootstrap : ClientBootstrap.

Let run (l : list candidate) : outcome (option Connection) :=
  for_each (try_one w client_bootstrap) l g.

Lemma run_fails_cons c rest e :
  verdict_of w g client_bootstrap c = Fails e ->
  run (c :: rest) = prepend (trace (try_one w client_bootstrap c g)) (run rest).
Proof.
  intros Hv. unfold run. rewrite for_each_continue.
  - now rewrite globals_try_one.
  - now rewrite value_try_one, Hv.
Qed.

Lemma run_connects_cons c rest conn :
  verdict_of w g client_bootstrap c = Connects conn ->
  run (c :: rest) = mkOut (trace (try_one w client_bootstrap c g)) g (Ok (Some conn)).
Proof.
  intros Hv. unfold run. rewrite (for_each_return _ _ _ _ (v := conn)).
  - now rewrite globals_try_one.
  - now rewrite value_try_one, Hv.
Qed.

Lemma run_propagates_cons c rest e :
  verdict_of w g client_bootstrap c = Propagates e ->
  run (c :: rest) = mkOut (trace (try_one w client_bootstrap c g)) g (Raise e).
Proof.
  intros Hv. unfold run. rewrite (for_each_raise _ _ _ _ (e := e)).
  - now rewrite globals_try_one.
  - now rewrite value_try_one, Hv.
Qed.

(** When the candidate at position [k] is the first the world lets
    through, the loop returns its connection after announcing exactly
    the candidates up to [k] and printing [k] failures; the transport is
    called as the failed attempts required and then once to build and
    once to connect the candidate at [k]. *)
Lemma loop_first_success l : forall k c conn,
  nth_error l k = Some c ->
  (forall j c', (j < k)%nat -> nth_error l j = Some c' ->
                exists e, verdict_of w g client_bootstrap c' = Fails e) ->
  verdict_of w g client_bootstrap c = Connects conn ->
  value (run l) = Ok (Some conn) /\
  globals_after (run l) = g /\
  attempts (trace (run l)) = map label (firstn (S k) l) /\
  length (failure_reasons (trace (run l))) = k /\
  transport_calls (trace (run l)) =
    flat_map (transport_calls_of w g client_bootstrap) (firstn k l)
      ++ [EvBuild (conn_kwargs conn); EvConnect (conn_kwargs conn)].
Proof.
  induction l as [|c0 rest IH]; intros k c conn Hk Hbefore Hc.
  - destruct k; discriminate.
  - destruct k as [|k].
    + injection Hk as ->.
      rewrite (@run_connects_cons c rest conn Hc). cbn [value globals_after trace].
      rewrite attempts_try_one, failure_reasons_try_one, Hc, transport_calls_try_one.
      rewrite (@transport_calls_connects w g client_bootstrap c conn Hc).
      repeat split; reflexivity.
    + destruct (Hbefore 0%nat c0) as [e He]; [lia | reflexivity |].
      rewrite (@run_fails_cons c0 rest e He).
      destruct (IH k c conn Hk) as (Hv & Hg & Ha & Hf & Ht); [|exact Hc|].
      { intros j c' Hj Hn. apply (Hbefore (S j) c'); [lia | exact Hn]. }
      rewrite value_prepend, globals_prepend, trace_prepend.
      rewrite attempts_app, failure_reasons_app, transport_calls_app, attempts_try_one,
        failure_reasons_try_one, transport_calls_try_one, He, Ha, length_app, Hf, Ht.
      cbn [firstn flat_map]. rewrite app_assoc.
      repeat split; auto.
Qed.

(** When the world lets no candidate through, the loop falls through
    after announcing every candidate and printing one failure for each,
    in order. *)
Lemma loop_all_fail l :
  (forall c, In c l -> exists e, verdict_of w g client_bootstrap c = Fails e) ->
  value (run l) = Ok None /\
  globals_after (run l) = g /\
  attempts (trace (run l)) = map label l /\
  Forall2 (fun c e => verdict_of w g client_bootstrap c = Fails e)
          l (failure_reasons (trace (run l))) /\
  transport_calls (trace (run l)) =
    flat_map (transport_calls_of w g client_bootstrap) l.
Proof.
  induction l as [|c rest IH]; intros Hall.
  - repeat split; constructor.
  - destruct (Hall c (or_introl eq_refl)) as [e He].
    rewrite (@run_fails_cons c rest e He).
    destruct IH as (Hv & Hg & Ha & Hf & Ht).
    { intros c' Hin. apply Hall. now right. }
    rewrite value_prepend, globals_prepend, trace_prepend.
    rewrite attempts_app, failure_reasons_app, transport_calls_app, attempts_try_one,
      failure_reasons_try_one, transport_calls_try_one, He, Ha, Ht.
    repeat split; auto. cbn [app]. constructor; assumption.
Qed.

End Fallback.

(** ** [discover_gg_host] as a whole *)

(** [discover_gg_host], case by case of how set-up and discovery end. *)
Lemma discover_gg_host_cases w g :
  discover_gg_host w g =
  match create_client_with_mtls_from_path w (certtificate_path g) (private_key_path g) with
  | Some e => mkOut [] g (Raise e)
  | None =>
      match discovery_client_init w (client_of g) with
      | Some e =>
          mkOut [EvLog INFO "Performing greengrass discovery..." []] g (Raise e)
      | None =>
          match discover w (client_of g) (device_name g) with
          | Raise e =>
              mkOut [EvLog INFO "Performing greengrass discovery..." [];
                     EvDiscover (client_of g) (device_name g);
                     EvFutureResult None] g (Raise e)
          | Ok discover_response =>
              prepend (discovery_events g discover_response)
                (after_loops (for_each (try_one w the_bootstrap)
                                       (candidates discover_response) g))
          end
      end
  end.
Proof.
  unfold discover_gg_host, logger. rewrite bind_get_globals.
  fold the_bootstrap. fold (client_of g).
  destruct (create_client_with_mtls_from_path w _ _) as [e|]; [reflexivity|].
  rewrite bind_ret, bind_emit.
  destruct (discovery_client_init w (client_of g)) as [e|]; [reflexivity|].
  rewrite bind_ret, !bind_emit.
  destruct (discover w (client_of g) (device_name g)) as [discover_response|e].
  2:{ rewrite bind_lift_raise. reflexivity. }
  rewrite bind_lift_ok, bind_emit, !prepend_prepend.
  unfold discovery_events. cbn [app]. f_equal.
  unfold bind, after_loops. rewrite try_all_candidates.
  destruct (for_each (try_one w the_bootstrap) (candidates discover_response) g)
    as [t g1 [[connection|]|e]]; cbn [value trace globals_after].
  - unfold ret, prepend. now rewrite app_nil_r.
  - reflexivity.
  - reflexivity.
Qed.

Lemma discover_gg_host_run w g discover_response :
  discovery_answers w g discover_response ->
  discover_gg_host w g =
  prepend (discovery_events g discover_response)
    (after_loops (for_each (try_one w the_bootstrap) (candidates discover_response) g)).
Proof.
  intros (Htls & Hinit & Hd). now rewrite discover_gg_host_cases, Htls, Hinit, Hd.
Qed.

Lemma attempts_discovery_events g r : attempts (discovery_events g r) = [].
Proof. reflexivity. Qed.

Lemma failure_reasons_discovery_events g r : failure_reasons (discovery_events g r) = [].
Proof. reflexivity. Qed.

Lemma transport_calls_discovery_events g r : transport_calls (discovery_events g r) = [].
Proof. reflexivity. Qed.

Lemma connects_from_candidate w g client_bootstrap c conn :
  verdict_of w g client_bootstrap c = Connects conn ->
  exists ca rest,
    certificate_authorities (fst (fst c)) = ca :: rest /\
    conn = {| conn_kwargs := kwargs_for g client_bootstrap (snd c) ca;
              conn_topics := [] |}.
Proof.
  destruct c as [[gg_group gg_core] connectivity_info]. unfold verdict_of. simpl.
  destruct (certificate_authorities gg_group) as [|ca rest]; [discriminate|].
  destruct (mtls_from_path w _) as [e|].
  { unfold verdict_of_exception. destruct (is_Exception e); discriminate. }
  destruct (connect w _) as [e|].
  { unfold verdict_of_exception. destruct (is_Exception e); discriminate. }
  intros H. injection H as <-. now exists ca, rest.
Qed.

(** C1. When set-up succeeds and discovery answers a response whose
    candidate at position [k] (in group order, then core order, then
    connectivity order) is the first one the transport accepts,
    [discover_gg_host] returns the connection built from that candidate
    (its host, its port, the first certificate authority of its group),
    announces exactly the candidates at positions 0 to [k] in that order
    and none after, and prints exactly [k] failures.  The transport is
    called for the [k] failed candidates as their failures required,
    then once to build and once to connect candidate [k], and never
    again. *)
Theorem discover_gg_host_first_success w g discover_response k c conn :
  discovery_answers w g discover_response ->
  nth_error (candidates discover_response) k = Some c ->
  (forall j c', (j < k)%nat -> nth_error (candidates discover_response) j = Some c' ->
                exists e, verdict_of w g the_bootstrap c' = Fails e) ->
  verdict_of w g the_bootstrap c = Connects conn ->
  value (discover_gg_host w g) = Ok conn /\
  (exists ca rest,
     certificate_authorities (fst (fst c)) = ca :: rest /\
     conn = {| conn_kwargs := kwargs_for g the_bootstrap (snd c) ca; conn_topics := [] |}) /\
  attempts (trace (discover_gg_host w g)) =
    map label (firstn (S k) (candidates discover_response)) /\
  length (failure_reasons (trace (discover_gg_host w g))) = k /\
  transport_calls (trace (discover_gg_host w g)) =
    flat_map (transport_calls_of w g the_bootstrap)
             (firstn k (candidates discover_response))
      ++ [EvBuild (conn_kwargs conn); EvConnect (conn_kwargs conn)].
Proof.
  intros Hd Hk Hbefore Hc.
  rewrite (@discover_gg_host_run w g discover_response Hd).
  destruct (@loop_first_success w g the_bootstrap (candidates discover_response) k c conn
              Hk Hbefore Hc) as (Hv & Hg & Ha & Hf & Ht).
  unfold after_loops. rewrite Hv.
  rewrite value_prepend, trace_prepend. cbn [value trace].
  rewrite attempts_app, failure_reasons_app, transport_calls_app,
    attempts_discovery_events, failure_reasons_discovery_events,
    transport_calls_discovery_events.
  repeat split; auto.
  eapply connects_from_candidate; eassumption.
Qed.

(** C2, as the program has it.  When set-up succeeds, discovery answers
    and the transport accepts no candidate of the response,
    [discover_gg_host] returns no connection: it raises [SystemExit] with
    the fixed message "All connection attempts failed" (exit status 1),
    which is all that exception carries.  The failure reasons are not
    part of it; they were printed, one per candidate and in candidate
    order, so their number is the number N of candidates. *)
Theorem discover_gg_host_all_fail w g discover_response :
  discovery_answers w g discover_response ->
  (forall c, In c (candidates discover_response) ->
             exists e, verdict_of w g the_bootstrap c = Fails e) ->
  value (discover_gg_host w g) =
    Raise (SystemExit (ExitStr "All connection attempts failed")) /\
  exit_status (SystemExit (ExitStr "All connection attempts failed")) = 1%Z /\
  exception_args (SystemExit (ExitStr "All connection attempts failed")) =
    [VStr "All connection attempts failed"] /\
  attempts (trace (discover_gg_host w g)) = map label (candidates discover_response) /\
  Forall2 (fun c e => verdict_of w g the_bootstrap c = Fails e)
          (candidates discover_response)
          (failure_reasons (trace (discover_gg_host w g))) /\
  length (failure_reasons (trace (discover_gg_host w g))) =
    length (candidates discover_response) /\
  transport_calls (trace (discover_gg_host w g)) =
    flat_map (transport_calls_of w g the_bootstrap) (candidates discover_response).
Proof.
  intros Hd Hall.
  rewrite (@discover_gg_host_run w g discover_response Hd).
  destruct (@loop_all_fail w g the_bootstrap (candidates discover_response) Hall)
    as (Hv & Hg & Ha & Hf & Ht).
  unfold after_loops. rewrite Hv.
  rewrite value_prepend, trace_prepend. cbn [value trace].
  rewrite !attempts_app, !failure_reasons_app, !transport_calls_app,
    attempts_discovery_events, failure_reasons_discovery_events,
    transport_calls_discovery_events, Ha, Ht.
  cbn [attempts failure_reasons transport_calls flat_map attempt_of_event
       failure_of_event filter is_transport_call app].
  rewrite !app_nil_r.
  repeat split; auto.
  symmetry. eapply Forall2_length; eassumption.
Qed.

(** C3, as the program has it.  When set-up succeeds and the response
    holds no candidate, [discover_gg_host] goes from discovery straight
    to [sys.exit]: no candidate is announced, the transport is not
    called, no failure reason is printed, and it raises the same
    [SystemExit] as after any number of failed candidates, which carries
    the message "All connection attempts failed" and no list. *)
Theorem discover_gg_host_no_candidate w g discover_response :
  discovery_answers w g discover_response ->
  candidates discover_response = [] ->
  discover_gg_host w g =
    mkOut (discovery_events g discover_response
             ++ [EvSysExit (ExitStr "All connection attempts failed")])
          g (Raise (SystemExit (ExitStr "All connection attempts failed"))) /\
  attempts (trace (discover_gg_host w g)) = [] /\
  transport_calls (trace (discover_gg_host w g)) = [] /\
  failure_reasons (trace (discover_gg_host w g)) = [] /\
  exception_args (SystemExit (ExitStr "All connection attempts failed")) =
    [VStr "All connection attempts failed"].
Proof.
  intros Hd Hnil.
  rewrite (@discover_gg_host_run w g discover_response Hd), Hnil.
  repeat split; reflexivity.
Qed.

Lemma discover_gg_host_first_success_witness :
  let w := Sample.world_with Sample.response Sample.files in
  let conn := {| conn_kwargs := kwargs_for Sample.ready the_bootstrap Sample.hostB
                                  "-----BEGIN CERTIFICATE-----";
                 conn_topics := [] |} in
  value (discover_gg_host w Sample.ready) = Ok conn /\
  attempts (trace (discover_gg_host w Sample.ready)) =
    [("arn:aws:iot:core1", "hostA", 1234%Z); ("arn:aws:iot:core1", "hostB", 5678%Z)] /\
  length (failure_reasons (trace (discover_gg_host w Sample.ready))) = 1%nat.
Proof.
  intros w conn.
  destruct (@discover_gg_host_first_success w Sample.ready Sample.response 1
              (Sample.group1, Sample.core1, Sample.hostB) conn)
    as (Hv & _ & Ha & Hf & _).
  - repeat split; reflexivity.
  - reflexivity.
  - intros j c' Hj Hn. destruct j as [|j]; [|lia].
    injection Hn as <-. exists Sample.timed_out. reflexivity.
  - reflexivity.
  - repeat split; assumption.
Defined.

Lemma discover_gg_host_all_fail_witness :
  let w := Sample.dead_world Sample.response in
  value (discover_gg_host w Sample.ready) =
    Raise (SystemExit (ExitStr "All connection attempts failed")) /\
  length (failure_reasons (trace (discover_gg_host w Sample.ready))) = 3%nat.
Proof.
  intros w.
  destruct (@discover_gg_host_all_fail w Sample.ready Sample.response)
    as (Hv & _ & _ & _ & _ & Hf & _).
  - repeat split; reflexivity.
  - intros c Hin. exists Sample.timed_out.
    simpl in Hin. destruct Hin as [<-|[<-|[<-|[]]]]; reflexivity.
  - split; assumption.
Defined.

(** C2 as the specification words it fails: no reading of the raised
    exception yields a failure list whose length is the number of
    candidates, because one failing candidate and three failing candidates
    end in the very same exception, which carries one message. *)
Lemma exhausted_error_carries_no_failure_list :
  ~ exists failure_list : base_exception -> list base_exception,
      forall w g r,
        discovery_answers w g r ->
        (forall c, In c (candidates r) ->
                   exists e, verdict_of w g the_bootstrap c = Fails e) ->
        exists err,
          value (discover_gg_host w g) = Raise err /\
          length (failure_list err) = length (candidates r).
Proof.
  intros [failure_list H].
  destruct (H (Sample.dead_world Sample.single_response) Sample.ready
              Sample.single_response) as (e1 & Hv1 & Hl1).
  { repeat split; reflexivity. }
  { intros c Hin. exists Sample.timed_out.
    simpl in Hin. destruct Hin as [<-|[]]; reflexivity. }
  destruct (H (Sample.dead_world Sample.response) Sample.ready
              Sample.response) as (e3 & Hv3 & Hl3).
  { repeat split; reflexivity. }
  { intros c Hin. exists Sample.timed_out.
    simpl in Hin. destruct Hin as [<-|[<-|[<-|[]]]]; reflexivity. }
  vm_compute in Hv1, Hv3.
  injection Hv1 as <-. injection Hv3 as <-.
  rewrite Hl1 in Hl3. discriminate.
Qed.

Lemma discover_gg_host_no_candidate_witness :
  let w := Sample.world_with Sample.empty_response Sample.files in
  trace (discover_gg_host w Sample.ready) =
    discovery_events Sample.ready Sample.empty_response
      ++ [EvSysExit (ExitStr "All connection attempts failed")] /\
  failure_reasons (trace (discover_gg_host w Sample.ready)) = [].
Proof.
  intros w.
  destruct (@discover_gg_host_no_candidate w Sample.ready Sample.empty_response)
    as (Hrun & _ & _ & Hf & _).
  - repeat split; reflexivity.
  - reflexivity.
  - split; [now rewrite Hrun | exact Hf].
Defined.

(** C3 as the specification words it fails: the exception raised for the
    empty candidate sequence is the one raised after three failed
    candidates, and what it carries is not an empty list but the message;
    so no reading of the exception gives the empty run an empty failure
    list and the three-candidate run its three failures. *)
Lemma empty_run_error_is_not_an_empty_list :
  let empty := Sample.world_with Sample.empty_response Sample.files in
  let three := Sample.dead_world Sample.response in
  (exists err,
     value (discover_gg_host empty Sample.ready) = Raise err /\
     value (discover_gg_host three Sample.ready) = Raise err /\
     exception_args err <> []) /\
  ~ exists failure_list : base_exception -> list base_exception,
      (forall err, value (discover_gg_host empty Sample.ready) = Raise err ->
                   failure_list err = []) /\
      (forall err, value (discover_gg_host three Sample.ready) = Raise err ->
                   length (failure_list err) = 3%nat).
Proof.
  intros empty three. split.
  - exists (SystemExit (ExitStr "All connection attempts failed")).
    repeat split; try reflexivity. discriminate.
  - intros (failure_list & H0 & H3).
    specialize (H0 _ eq_refl). specialize (H3 _ eq_refl).
    rewrite H0 in H3. discriminate.
Qed.

(** ** Groups without a certificate authority *)

Section EmptyTrustAnchors.

Variable w : world.
Variable g : globals.
Variable client_bootstrap : ClientBootstrap.

Let run (l : list candidate) : outcome (option Connection) :=
  for_each (try_one w client_bootstrap) l g.

Lemma run_globals l : globals_after (run l) = g.
Proof.
  induction l as [|c rest IH]; [reflexivity|].
  unfold run in *.
  destruct (verdict_of w g client_bootstrap c) as [conn|e|e] eqn:Hv.
  - now rewrite (@run_connects_cons w g client_bootstrap c rest conn Hv).
  - rewrite (@run_fails_cons w g client_bootstrap c rest e Hv), globals_prepend.
    exact IH.
  - now rewrite (@run_propagates_cons w g client_bootstrap c rest e Hv).
Qed.

Lemma run_app_value l1 l2 :
  value (run (l1 ++ l2)) =
  match value (run l1) with
  | Ok None => value (run l2)
  | v => v
  end.
Proof.
  pose proof (run_globals l1) as Hg. unfold run in *.
  rewrite for_each_app.
  destruct (value (for_each (try_one w client_bootstrap) l1 g)) as [[v|]|e] eqn:Hv;
    rewrite ?Hv; auto.
  now rewrite value_prepend, Hg.
Qed.

Lemma propagates_not_Exception c e :
  verdict_of w g client_bootstrap c = Propagates e -> is_Exception e = false.
Proof.
  destruct c as [[gg_group gg_core] connectivity_info]. unfold verdict_of.
  destruct (certificate_authorities gg_group); [discriminate|].
  unfold verdict_of_exception.
  destruct (mtls_from_path w _) as [x|].
  { destruct (is_Exception x) eqn:Hx; [discriminate|]. intros H. now injection H as <-. }
  destruct (connect w _) as [x|]; [|discriminate].
  destruct (is_Exception x) eqn:Hx; [discriminate|]. intros H. now injection H as <-.
Qed.

(** No exception of a class derived from [Exception] leaves the loop. *)
Lemma run_swallows_exceptions l e :
  value (run l) = Raise e -> is_Exception e = false.
Proof.
  induction l as [|c rest IH]; [discriminate|].
  unfold run in *.
  destruct (verdict_of w g client_bootstrap c) as [conn|e'|e'] eqn:Hv.
  - rewrite (@run_connects_cons w g client_bootstrap c rest conn Hv). discriminate.
  - rewrite (@run_fails_cons w g client_bootstrap c rest e' Hv), value_prepend.
    exact IH.
  - rewrite (@run_propagates_cons w g client_bootstrap c rest e' Hv).
    cbn [value]. intros H. injection H as <-.
    eapply propagates_not_Exception; eassumption.
Qed.

Lemma verdict_without_ca gg_group gg_core connectivity_info :
  certificate_authorities gg_group = [] ->
  verdict_of w g client_bootstrap (gg_group, gg_core, connectivity_info) = Fails IndexError.
Proof. intros H. unfold verdict_of. now rewrite H. Qed.

Lemma in_group_candidates gg_group c :
  In c (group_candidates gg_group) -> fst (fst c) = gg_group.
Proof.
  unfold group_candidates. rewrite in_flat_map.
  intros (gg_core & _ & Hin). apply in_map_iff in Hin.
  destruct Hin as (connectivity_info & <- & _). reflexivity.
Qed.

Lemma run_drop_groups groups :
  value (run (flat_map group_candidates groups)) =
  value (run (flat_map group_candidates (filter has_certificate_authority groups))).
Proof.
  induction groups as [|gg_group rest IH]; [reflexivity|].
  cbn [flat_map filter]. rewrite run_app_value.
  destruct (has_certificate_authority gg_group) eqn:Hca.
  - cbn [flat_map]. rewrite run_app_value, IH. reflexivity.
  - destruct (loop_all_fail w g client_bootstrap (group_candidates gg_group))
      as (Hv & _).
    { intros c Hin. exists IndexError.
      destruct c as [[gg gg_core] connectivity_info].
      apply in_group_candidates in Hin. simpl in Hin. subst gg.
      apply verdict_without_ca. unfold has_certificate_authority in Hca.
      now destruct (certificate_authorities gg_group). }
    fold (run (group_candidates gg_group)) in Hv. rewrite Hv. exact IH.
Qed.

(** C10. For a group whose list of certificate authorities is empty,
    the attempt on each of its candidates ends in the [except] clause:
    the [IndexError] of [certificate_authorities[0]] is printed as the
    failure, no transport call is made, and the loop goes on with the
    candidates that follow.  For every response, the loops end as they
    do on the response without such groups, and no exception derived
    from [Exception] leaves them. *)
Theorem empty_certificate_authorities_caught gg_group gg_core connectivity_info rest r :
  certificate_authorities gg_group = [] ->
  let c := (gg_group, gg_core, connectivity_info) in
  try_candidate w client_bootstrap gg_group gg_core connectivity_info g =
    mkOut [trying c; failed IndexError] g (Ok None) /\
  for_each (try_one w client_bootstrap) (c :: rest) g =
    prepend [trying c; failed IndexError] (for_each (try_one w client_bootstrap) rest g) /\
  value (try_all w client_bootstrap r g) =
    value (try_all w client_bootstrap (drop_groups_without_ca r) g) /\
  (forall e, value (try_all w client_bootstrap r g) = Raise e -> is_Exception e = false).
Proof.
  intros Hca c.
  assert (Hone : try_one w client_bootstrap c g = mkOut [trying c; failed IndexError] g (Ok None)).
  { rewrite try_one_spec. unfold c at 1.
    rewrite (@verdict_without_ca gg_group gg_core connectivity_info Hca).
    unfold c, transport_events. now rewrite Hca. }
  split; [exact Hone|]. split.
  - rewrite for_each_continue; rewrite Hone; reflexivity.
  - rewrite !try_all_candidates. split.
    + apply run_drop_groups.
    + intros e. apply run_swallows_exceptions.
Qed.

End EmptyTrustAnchors.

Lemma empty_certificate_authorities_caught_witness :
  let w := Sample.world_with Sample.bare_response Sample.files in
  for_each (try_one w the_bootstrap) (candidates Sample.bare_response) initial_globals =
  prepend [trying (Sample.bare_group, Sample.core2, Sample.hostC); failed IndexError]
    (for_each (try_one w the_bootstrap) (candidates Sample.response) initial_globals).
Proof.
  intros w.
  destruct (@empty_certificate_authorities_caught w initial_globals the_bootstrap
              Sample.bare_group Sample.core2 Sample.hostC
              (candidates Sample.response) Sample.bare_response) as (_ & Hloop & _).
  - reflexivity.
  - exact Hloop.
Defined.


(** ** Connection lifecycle callbacks *)

(** C4. A resumed notification with [session_present] true makes
    [on_connection_resumed] print its message and nothing else: no call of
    [resubscribe_existing_topics], no completion callback, no exception,
    and the module variables (so the connection and its subscriptions)
    are as before. *)
Theorem on_connection_resumed_session_present connection return_code g :
  on_connection_resumed connection return_code true g =
    mkOut [EvPrint "Connection resumed. return_code: {} session_present: {}"
             [VReturnCode return_code; VBool true]] g (Ok tt) /\
  resubscribe_calls (trace (on_connection_resumed connection return_code true g)) = [].
Proof.
  unfold on_connection_resumed, print. rewrite bind_emit, andb_false_r.
  split; reflexivity.
Qed.

Lemma exit_calls_app t1 t2 : exit_calls (t1 ++ t2) = exit_calls t1 ++ exit_calls t2.
Proof. apply flat_map_app. Qed.

(** The loop of [on_resubscribe_complete] stops at the first rejected
    acknowledgment with one call of [sys.exit]. *)
Lemma resubscribe_loop acks g :
  for_each (R := unit) (fun ack : string * option QoS =>
      let '(topic, qos) := ack in
      match qos with
      | None => sys_exit (ExitStr ("Server rejected resubscribe to topic: " ++ topic))
      | Some _ => ret None
      end) acks g =
  match find rejected acks with
  | Some ack =>
      mkOut [EvSysExit (rejection_message (fst ack))] g
            (Raise (SystemExit (rejection_message (fst ack))))
  | None => mkOut [] g (Ok None)
  end.
Proof.
  induction acks as [|[topic [q|]] rest IH]; [reflexivity| |].
  - cbn [for_each find rejected snd]. rewrite bind_ret. exact IH.
  - reflexivity.
Qed.

Lemma existsb_rejected acks :
  existsb rejected acks =
  match find rejected acks with
  | Some _ => true
  | None => false
  end.
Proof.
  induction acks as [|a rest IH]; [reflexivity|].
  cbn [existsb find]. destruct (rejected a); [reflexivity | exact IH].
Qed.

(** C5, as the program has it.  With [session_present] false the handler
    re-subscribes only when the return code is [ACCEPTED], and then by one
    call of [resubscribe_existing_topics] on the connection, whatever the
    number of subscriptions it holds, after which it registers
    [on_resubscribe_complete]; with another return code it makes no call.
    [on_resubscribe_complete] calls [sys.exit] exactly once when some
    acknowledgment grants no quality of service (for the first such
    topic, which ends the loop), and not at all otherwise. *)
Theorem resubscribe_when_session_lost connection return_code acks g :
  on_connection_resumed connection ACCEPTED false g =
    mkOut [EvPrint "Connection resumed. return_code: {} session_present: {}"
             [VReturnCode ACCEPTED; VBool false];
           EvPrint "Session did not persist. Resubscribing to existing topics..." [];
           EvResubscribe connection;
           EvAddDoneCallback cb_on_resubscribe_complete] g (Ok tt) /\
  resubscribe_calls (trace (on_connection_resumed connection return_code false g)) =
    (if ConnectReturnCode_eqb return_code ACCEPTED then [connection] else []) /\
  exit_calls (trace (on_resubscribe_complete (Ok acks) g)) =
    (match find rejected acks with
     | Some ack => [rejection_message (fst ack)]
     | None => []
     end) /\
  value (on_resubscribe_complete (Ok acks) g) =
    (match find rejected acks with
     | Some ack => Raise (SystemExit (rejection_message (fst ack)))
     | None => Ok tt
     end) /\
  length (exit_calls (trace (on_resubscribe_complete (Ok acks) g))) =
    (if existsb rejected acks then 1%nat else 0%nat).
Proof.
  split; [reflexivity|]. split.
  { destruct return_code; reflexivity. }
  assert (Hrun : on_resubscribe_complete (Ok acks) g =
                 match find rejected acks with
                 | Some ack =>
                     mkOut [EvPrint "Resubscribe results: {}" [VTopics acks];
                            EvSysExit (rejection_message (fst ack))] g
                           (Raise (SystemExit (rejection_message (fst ack))))
                 | None => mkOut [EvPrint "Resubscribe results: {}" [VTopics acks]] g (Ok tt)
                 end).
  { unfold on_resubscribe_complete, print.
    rewrite bind_lift_ok, bind_emit. unfold bind.
    rewrite resubscribe_loop.
    destruct (find rejected acks); reflexivity. }
  rewrite Hrun.
  rewrite existsb_rejected.
  destruct (find rejected acks); repeat split; reflexivity.
Qed.

(** C5 as the specification words it fails twice: a connection holding
    two subscriptions is re-subscribed by one call, not two; and with a
    return code other than [ACCEPTED] a connection holding one
    subscription is not re-subscribed at all. *)
Lemma resubscribe_calls_differ_from_subscriptions :
  length (resubscribe_calls
            (trace (on_connection_resumed Sample.two_topics ACCEPTED false initial_globals)))
    <> length (conn_topics Sample.two_topics) /\
  length (resubscribe_calls
            (trace (on_connection_resumed Sample.live SERVER_UNAVAILABLE false initial_globals)))
    <> length (conn_topics Sample.live).
Proof. split; discriminate. Qed.

(** ** Certificate lookup *)

Lemma prefix_append s1 : forall s2,
  String.prefix s1 s2 = true <-> exists b, s2 = (s1 ++ b)%string.
Proof.
  induction s1 as [|a s1 IH]; intros s2.
  - split; [intros _; now exists s2|]. intros _. now destruct s2.
  - destruct s2 as [|b s2]; simpl.
    + split; [discriminate | intros [x Hx]; discriminate].
    + destruct (Ascii.ascii_dec a b) as [->|Hne].
      * rewrite IH. split; intros [x Hx]; exists x; congruence.
      * split; [discriminate|]. intros [x Hx]. congruence.
Qed.

Lemma contains_unfold sub s :
  contains sub s =
  (String.prefix sub s
   || match s with
      | EmptyString => false
      | String _ s' => contains sub s'
      end)%bool.
Proof. destruct s; reflexivity. Qed.

(** [contains] is the substring test. *)
Lemma contains_spec sub s :
  contains sub s = true <-> exists a b, s = (a ++ sub ++ b)%string.
Proof.
  split.
  - induction s as [|c s IH]; rewrite contains_unfold, orb_true_iff; intros [H|H].
    + apply prefix_append in H. destruct H as [b Hb]. now exists ""%string, b.
    + discriminate.
    + apply prefix_append in H. destruct H as [b Hb]. now exists ""%string, b.
    + destruct (IH H) as (a & b & ->). now exists (String c a), b.
  - intros (a & b & ->). induction a as [|c a IH].
    + rewrite contains_unfold, orb_true_iff. left.
      apply prefix_append. now exists b.
    + cbn [append]. rewrite contains_unfold, IH. apply orb_true_r.
Qed.

Lemma scan_names w cert_prefix names g :
  for_each (fun file : string =>
      if contains cert_prefix file
      then ret (Some (CERT_ROOT w ++ "/" ++ file)%string)
      else ret None) names g =
  mkOut [] g (Ok (option_map (fun file => (CERT_ROOT w ++ "/" ++ file)%string)
                             (find (contains cert_prefix) names))).
Proof.
  induction names as [|file rest IH]; [reflexivity|].
  cbn [for_each find]. destruct (contains cert_prefix file); rewrite bind_ret.
  - reflexivity.
  - exact IH.
Qed.

(** [find_cert_file] answers with the first matching name of the walk, or
    raises. *)
Lemma find_cert_file_run w cert_prefix g :
  find_cert_file w cert_prefix g =
  match locate w cert_prefix with
  | Some file => mkOut [] g (Ok (CERT_ROOT w ++ "/" ++ file)%string)
  | None => mkOut [] g (Raise (not_found cert_prefix))
  end.
Proof.
  unfold find_cert_file, bind.
  rewrite for_each_ext with
    (body2 := fun entry : string * list string * list string =>
       for_each (fun file : string =>
         if contains cert_prefix file
         then ret (Some (CERT_ROOT w ++ "/" ++ file)%string)
         else ret None) (snd entry)).
  2:{ intros [[dirpath dirnames] names] g'. reflexivity. }
  rewrite for_each_flat_map, scan_names.
  change (flat_map snd (os_walk w (CERT_ROOT w))) with (file_names w).
  unfold locate. destruct (find (contains cert_prefix) (file_names w)); reflexivity.
Qed.

Lemma logger_level_lookup v g :
  lift (getitem loglevel_map (LogLevel_value v)) g = mkOut [] g (Ok (logger_level v)).
Proof. destruct v; reflexivity. Qed.

(** [arg_check], case by case of the command line and of which
    certificate files exist. *)
Lemma arg_check_run w g :
  arg_check w g =
  match parse_args w with
  | Raise e => mkOut [] g (Raise e)
  | Ok args =>
      let t := [EvInitLogging (verbosity args); EvSetLevel (logger_level (verbosity args))] in
      match locate w "private.key" with
      | None => mkOut t g (Raise (not_found "private.key"))
      | Some key =>
          let g1 := set_private_key_path (Some (CERT_ROOT w ++ "/" ++ key)%string) g in
          match locate w "cert.pem" with
          | None => mkOut t g1 (Raise (not_found "cert.pem"))
          | Some cert =>
              let g2 := set_certtificate_path (Some (CERT_ROOT w ++ "/" ++ cert)%string) g1 in
              match locate w "AmazonRootCA1.pem" with
              | None => mkOut t g2 (Raise (not_found "AmazonRootCA1.pem"))
              | Some ca =>
                  mkOut t
                    (set_region (Some (ns_region args))
                       (set_device_name (Some (thing_name args))
                          (set_root_ca_path (Some (CERT_ROOT w ++ "/" ++ ca)%string) g2)))
                    (Ok tt)
              end
          end
      end
  end.
Proof.
  unfold arg_check.
  destruct (parse_args w) as [args|e]; [|now rewrite bind_lift_raise].
  rewrite bind_lift_ok, bind_emit.
  rewrite (@bind_ok _ _ _ _ _ _ _ _ (logger_level_lookup (verbosity args) g)).
  rewrite bind_emit.
  pose proof (find_cert_file_run w "private.key" g) as H1.
  destruct (locate w "private.key") as [key|].
  2:{ rewrite (@bind_raise _ _ _ _ _ _ _ _ H1). reflexivity. }
  rewrite (@bind_ok _ _ _ _ _ _ _ _ H1), bind_assign.
  set (g1 := set_private_key_path _ g).
  pose proof (find_cert_file_run w "cert.pem" g1) as H2.
  destruct (locate w "cert.pem") as [cert|].
  2:{ rewrite (@bind_raise _ _ _ _ _ _ _ _ H2). reflexivity. }
  rewrite (@bind_ok _ _ _ _ _ _ _ _ H2), bind_assign.
  set (g2 := set_certtificate_path _ g1).
  pose proof (find_cert_file_run w "AmazonRootCA1.pem" g2) as H3.
  destruct (locate w "AmazonRootCA1.pem") as [ca|].
  2:{ rewrite (@bind_raise _ _ _ _ _ _ _ _ H3). reflexivity. }
  rewrite (@bind_ok _ _ _ _ _ _ _ _ H3), !bind_assign.
  reflexivity.
Qed.

Lemma locate_some w cert_prefix file :
  locate w cert_prefix = Some file ->
  In file (file_names w) /\ exists a b, file = (a ++ cert_prefix ++ b)%string.
Proof.
  unfold locate. intros H. apply find_some in H. destruct H as [Hin Hc].
  split; [exact Hin | now apply contains_spec].
Qed.

Lemma locate_none w cert_prefix :
  locate w cert_prefix = None ->
  forall file, In file (file_names w) ->
    ~ exists a b, file = (a ++ cert_prefix ++ b)%string.
Proof.
  unfold locate. intros H file Hin Hsub.
  apply contains_spec in Hsub.
  pose proof (find_none _ _ H file Hin) as Hf. congruence.
Qed.

Lemma find_first {A} (p : A -> bool) l x :
  find p l = Some x ->
  exists before after,
    l = before ++ x :: after /\ forall y, In y before -> p y = false.
Proof.
  induction l as [|y l IH]; [discriminate|]. cbn [find].
  destruct (p y) eqn:Hy.
  - intros H. injection H as <-. exists [], l. split; [reflexivity|]. intros z [].
  - intros H. destruct (IH H) as (before & after & -> & Hb).
    exists (y :: before), after. split; [reflexivity|].
    intros z [<-|Hz]; [exact Hy | now apply Hb].
Qed.

(** When [arg_check] raises, [device_main] stops there. *)
Lemma device_main_stops w fuel g t g1 e :
  arg_check w g = mkOut t g1 (Raise e) ->
  device_main w fuel g = mkOut t g1 (Raise e).
Proof.
  intros H. unfold device_main. now rewrite (@bind_raise _ _ _ _ _ _ _ _ H).
Qed.

(** C6, as the program has it.  For each substring [find_cert_file]
    takes the first file name, in the order of the walk over the
    certificate directory and everything below it, that contains the
    substring, whether or not other names contain it too, and answers
    with the certificate directory joined to that name.  With a name for
    each of "private.key", "cert.pem" and "AmazonRootCA1.pem" and a
    command line that parses, [arg_check] stores the three paths.  When
    the command line parses and no name of the walk contains one of the
    three, start-up ends in the uncaught [Exception] "... not found." for
    the first missing substring, before discovery or any other call that
    reaches the network. *)
Theorem trust_store_lookup w fuel g :
  (forall cert_prefix file,
     locate w cert_prefix = Some file ->
     find_cert_file w cert_prefix g = mkOut [] g (Ok (cert_path w file)) /\
     (exists a b, file = (a ++ cert_prefix ++ b)%string) /\
     exists before after,
       file_names w = before ++ file :: after /\
       forall earlier, In earlier before ->
                       ~ exists a b, earlier = (a ++ cert_prefix ++ b)%string) /\
  (forall args key cert ca,
     parse_args w = Ok args ->
     locate w "private.key" = Some key ->
     locate w "cert.pem" = Some cert ->
     locate w "AmazonRootCA1.pem" = Some ca ->
     value (arg_check w g) = Ok tt /\
     private_key_path (globals_after (arg_check w g)) = Some (cert_path w key) /\
     certtificate_path (globals_after (arg_check w g)) = Some (cert_path w cert) /\
     root_ca_path (globals_after (arg_check w g)) = Some (cert_path w ca)) /\
  (forall args cert_prefix,
     parse_args w = Ok args ->
     In cert_prefix required_names ->
     locate w cert_prefix = None ->
     exists missing,
       In missing required_names /\
       locate w missing = None /\
       find_cert_file w missing g = mkOut [] g (Raise (not_found missing)) /\
       value (device_main w fuel g) = Raise (not_found missing) /\
       exit_status (not_found missing) = 1%Z /\
       network_events (trace (device_main w fuel g)) = []).
Proof.
  split; [|split].
  - intros cert_prefix file Hloc.
    rewrite find_cert_file_run, Hloc.
    split; [reflexivity|]. split; [now apply (locate_some w cert_prefix)|].
    unfold locate in Hloc. destruct (find_first _ _ Hloc) as (before & after & Hl & Hb).
    exists before, after. split; [exact Hl|].
    intros earlier Hin Hsub. apply contains_spec in Hsub.
    rewrite (Hb earlier Hin) in Hsub. discriminate.
  - intros args key cert ca Hp Hk Hc Ha.
    rewrite arg_check_run, Hp, Hk, Hc, Ha. repeat split; reflexivity.
  - intros args cert_prefix Hp Hin Hnone.
    pose proof (arg_check_run w g) as Hrun. rewrite Hp in Hrun. cbv zeta in Hrun.
    destruct (locate w "private.key") as [key|] eqn:Hk.
    2:{ exists "private.key"%string.
        rewrite find_cert_file_run, Hk, (@device_main_stops w fuel _ _ _ _ Hrun).
        repeat split; auto. now left. }
    destruct (locate w "cert.pem") as [cert|] eqn:Hc.
    2:{ exists "cert.pem"%string.
        rewrite find_cert_file_run, Hc, (@device_main_stops w fuel _ _ _ _ Hrun).
        repeat split; auto. right; now left. }
    destruct (locate w "AmazonRootCA1.pem") as [ca|] eqn:Ha.
    2:{ exists "AmazonRootCA1.pem"%string.
        rewrite find_cert_file_run, Ha, (@device_main_stops w fuel _ _ _ _ Hrun).
        repeat split; auto. right; right; now left. }
    exfalso. destruct Hin as [<-|[<-|[<-|[]]]]; congruence.
Qed.

Lemma trust_store_lookup_witness :
  (let w := Sample.world_with Sample.response Sample.files in
   find_cert_file w "cert.pem" initial_globals =
     mkOut [] initial_globals (Ok "/home/pi/alert/certs//alert.cert.pem"%string)) /\
  (let w := Sample.world_with Sample.response ["alert.cert.pem"; "alert.private.key"] in
   exists missing,
     value (device_main w 0 initial_globals) = Raise (not_found missing) /\
     network_events (trace (device_main w 0 initial_globals)) = []).
Proof.
  split.
  - intros w.
    destruct (@trust_store_lookup w 0 initial_globals) as (Hfound & _ & _).
    destruct (Hfound "cert.pem"%string "alert.cert.pem"%string) as (Hrun & _).
    + reflexivity.
    + exact Hrun.
  - intros w.
    destruct (@trust_store_lookup w 0 initial_globals) as (_ & _ & Hmissing).
    destruct (Hmissing Sample.args "AmazonRootCA1.pem"%string)
      as (missing & _ & _ & _ & Hv & _ & Hn).
    + reflexivity.
    + right; right; now left.
    + reflexivity.
    + exists missing. split; assumption.
Defined.

(** C6 as the specification words it fails.  The lookup does not want
    exactly one file: with two certificates in the directory it is
    satisfied and takes the first.  Nor does it look at the certificate
    directory alone: when that directory holds no file at all and the
    three files lie in a sub-directory, [arg_check] finds all three and
    returns, with paths directly under the certificate directory, and
    start-up does not end in the lookup error. *)
Lemma lookup_is_neither_unique_nor_local :
  (let w := Sample.world_with Sample.response Walks.two_certs in
   value (find_cert_file w "cert.pem" initial_globals) =
     Ok "/home/pi/alert/certs//old.cert.pem"%string /\
   In "old.cert.pem"%string (directory_files w) /\
   In "new.cert.pem"%string (directory_files w) /\
   contains "cert.pem" "new.cert.pem" = true) /\
  (let w := Walks.nested Sample.response in
   directory_files w = [] /\
   value (arg_check w initial_globals) = Ok tt /\
   root_ca_path (globals_after (arg_check w initial_globals)) =
     Some "/home/pi/alert/certs//AmazonRootCA1.pem"%string /\
   forall cert_prefix,
     value (device_main w 0 initial_globals) <> Raise (not_found cert_prefix)).
Proof.
  split.
  - cbv zeta. repeat split; try reflexivity.
    + now left.
    + right; right; now left.
  - cbv zeta. repeat split; try reflexivity.
    intros cert_prefix. vm_compute. discriminate.
Qed.

(** ** Shutdown *)

(** C7 on the program.  The guard of [exit_sample] is [if not
    mqtt_connection]: with a live connection in [mqtt_connection] the
    handler logs, never calls [disconnect] and exits with status 0; with
    [mqtt_connection] still [None] it logs "Disconnecting...", calls
    [disconnect] on [None] and ends in [AttributeError] without reaching
    [sys.exit(0)]. *)
Theorem exit_handler_guard_inverted g c :
  exit_handler (set_mqtt_connection (Some c) g) =
    mkOut [EvLog INFO "Exiting: %s" [VStr " Key abort"]; EvSysExit (ExitInt 0)]
          (set_mqtt_connection (Some c) g)
          (Raise (SystemExit (ExitInt 0))) /\
  filter is_disconnect (trace (exit_handler (set_mqtt_connection (Some c) g))) = [] /\
  exit_handler (set_mqtt_connection None g) =
    mkOut [EvLog INFO "Exiting: %s" [VStr " Key abort"];
           EvLog INFO "Disconnecting..." []]
          (set_mqtt_connection None g)
          (Raise (Exc "AttributeError" "'NoneType' object has no attribute 'disconnect'")) /\
  exit_calls (trace (exit_handler (set_mqtt_connection None g))) = [] /\
  exit_status (Exc "AttributeError" "'NoneType' object has no attribute 'disconnect'") = 1%Z.
Proof. repeat split; reflexivity. Qed.

(** ** Interruption *)

Lemma interruption_format_has_no_specifier :
  contains "%" "connection interrupted with error {}" = false.
Proof. reflexivity. Qed.

(** C9 on the program.  [on_connection_interupted] builds its message
    with the [%] operator on a format string that has no conversion
    specifier; for the exception object the SDK passes as [error] this
    raises [TypeError] before [logger.info] is reached, so nothing is
    logged and the handler raises. *)
Theorem on_connection_interupted_raises connection e g :
  on_connection_interupted connection (VExn e) g =
    mkOut [] g
      (Raise (Exc "TypeError" "not all arguments converted during string formatting")).
Proof. reflexivity. Qed.


(** * Further properties of the program *)

(** ** Certificate lookup, continued *)

(** X1. [find_cert_file] returns a path exactly when some file name of the
    walk contains the substring, and raises "... not found." exactly when
    none does; in both cases it prints nothing and leaves the module
    variables alone. *)
Theorem find_cert_file_succeeds_iff w cert_prefix g :
  ((exists file_path, find_cert_file w cert_prefix g = mkOut [] g (Ok file_path)) <->
   (exists file, In file (file_names w) /\
                 exists a b, file = (a ++ cert_prefix ++ b)%string)) /\
  (find_cert_file w cert_prefix g = mkOut [] g (Raise (not_found cert_prefix)) <->
   (forall file, In file (file_names w) ->
                 ~ exists a b, file = (a ++ cert_prefix ++ b)%string)).
Proof.
  rewrite find_cert_file_run.
  destruct (locate w cert_prefix) as [file|] eqn:Hloc.
  - destruct (locate_some _ _ Hloc) as [Hin Hsub]. split; split.
    + intros _. now exists file.
    + intros _. now exists (CERT_ROOT w ++ "/" ++ file)%string.
    + discriminate.
    + intros Hnone. exfalso. exact (Hnone file Hin Hsub).
  - pose proof (locate_none _ _ Hloc) as Hnone. split; split.
    + intros [file_path H]. discriminate.
    + intros (file & Hin & Hsub). exfalso. exact (Hnone file Hin Hsub).
    + intros _. exact Hnone.
    + reflexivity.
Qed.

Lemma find_app_skip {A} (p : A -> bool) before x after :
  (forall y, In y before -> p y = false) ->
  p x = true ->
  find p (before ++ x :: after) = Some x.
Proof.
  intros Hb Hx. induction before as [|y before IH]; cbn [app find].
  - now rewrite Hx.
  - rewrite (Hb y (or_introl eq_refl)). apply IH.
    intros z Hz. apply Hb. now right.
Qed.

(** X2. When several file names contain the substring, [find_cert_file]
    answers with the first one in walk order: a name is chosen as soon as
    no name before it matches, whatever follows it. *)
Theorem find_cert_file_first_match w cert_prefix g before file after :
  file_names w = before ++ file :: after ->
  (forall earlier, In earlier before -> contains cert_prefix earlier = false) ->
  contains cert_prefix file = true ->
  find_cert_file w cert_prefix g = mkOut [] g (Ok (cert_path w file)).
Proof.
  intros Hnames Hbefore Hfile.
  rewrite find_cert_file_run. unfold locate. rewrite Hnames.
  now rewrite (@find_app_skip _ (contains cert_prefix) before file after Hbefore Hfile).
Qed.

Lemma find_cert_file_first_match_witness :
  find_cert_file (Sample.world_with Sample.response Walks.two_certs) "cert.pem"
                 initial_globals =
  mkOut [] initial_globals (Ok "/home/pi/alert/certs//old.cert.pem"%string).
Proof.
  apply (@find_cert_file_first_match
           (Sample.world_with Sample.response Walks.two_certs) "cert.pem"
           initial_globals [] "old.cert.pem"
           ["alert.private.key"; "new.cert.pem"; "AmazonRootCA1.pem"]).
  - reflexivity.
  - intros earlier [].
  - reflexivity.
Defined.

(** X3. The path [find_cert_file] returns is built from the certificate
    directory and the file name alone: the directory in which the walk
    found the file plays no part, so two trees with the same application
    root and the same sequence of file names give the same answer (a file
    in a sub-directory is reported directly under the certificate
    directory). *)
Theorem find_cert_file_ignores_directories w1 w2 cert_prefix g :
  APP_ROOT w1 = APP_ROOT w2 ->
  file_names w1 = file_names w2 ->
  find_cert_file w1 cert_prefix g = find_cert_file w2 cert_prefix g.
Proof.
  intros Hroot Hnames. rewrite !find_cert_file_run.
  unfold locate, CERT_ROOT. now rewrite Hnames, Hroot.
Qed.

Lemma find_cert_file_ignores_directories_witness :
  find_cert_file (Walks.nested Sample.response) "private.key" initial_globals =
  mkOut [] initial_globals (Ok "/home/pi/alert/certs//alert.private.key"%string).
Proof.
  rewrite (@find_cert_file_ignores_directories
             (Walks.nested Sample.response)
             (Sample.world_with Sample.response Sample.files)
             "private.key" initial_globals).
  - reflexivity.
  - reflexivity.
  - reflexivity.
Defined.

(** ** [arg_check], continued *)

Lemma mqtt_connection_arg_check w g :
  mqtt_connection (globals_after (arg_check w g)) = mqtt_connection g.
Proof.
  rewrite arg_check_run. destruct (parse_args w) as [args|e]; [|reflexivity].
  cbv zeta.
  destruct (locate w "private.key"); [|reflexivity].
  destruct (locate w "cert.pem"); [|reflexivity].
  destruct (locate w "AmazonRootCA1.pem"); reflexivity.
Qed.

(** X4. [arg_check] returns normally exactly when the command line
    parses and each of "private.key", "cert.pem" and "AmazonRootCA1.pem"
    is found; it has then stored the thing name and the region of the
    command line next to the three paths, and it never touches
    [mqtt_connection]. *)
Theorem arg_check_succeeds_iff w g :
  (value (arg_check w g) = Ok tt <->
   (exists args, parse_args w = Ok args) /\
   forall cert_prefix, In cert_prefix required_names ->
                       exists file, locate w cert_prefix = Some file) /\
  (forall args, parse_args w = Ok args ->
     value (arg_check w g) = Ok tt ->
     device_name (globals_after (arg_check w g)) = Some (thing_name args) /\
     region (globals_after (arg_check w g)) = Some (ns_region args)) /\
  mqtt_connection (globals_after (arg_check w g)) = mqtt_connection g.
Proof.
  split; [|split; [|apply mqtt_connection_arg_check]].
  - rewrite arg_check_run.
    destruct (parse_args w) as [args|e].
    2:{ split; [discriminate|]. intros [[args H] _]. discriminate. }
    cbv zeta.
    destruct (locate w "private.key") as [key|] eqn:Hk.
    2:{ split; [discriminate|]. intros [_ H].
        destruct (H "private.key"%string) as [f Hf]; [now left|]. congruence. }
    destruct (locate w "cert.pem") as [cert|] eqn:Hc.
    2:{ split; [discriminate|]. intros [_ H].
        destruct (H "cert.pem"%string) as [f Hf]; [right; now left|]. congruence. }
    destruct (locate w "AmazonRootCA1.pem") as [ca|] eqn:Ha.
    2:{ split; [discriminate|]. intros [_ H].
        destruct (H "AmazonRootCA1.pem"%string) as [f Hf]; [right; right; now left|].
        congruence. }
    split; [|reflexivity].
    intros _. split; [now exists args|].
    intros p [<-|[<-|[<-|[]]]]; eauto.
  - intros args Hp. rewrite arg_check_run, Hp. cbv zeta.
    destruct (locate w "private.key"); [|discriminate].
    destruct (locate w "cert.pem"); [|discriminate].
    destruct (locate w "AmazonRootCA1.pem"); [|discriminate].
    intros _. split; reflexivity.
Qed.

(** X5. Whatever [arg_check] raises is either what [parse_args] raised
    (then nothing has been done: no logging set-up, no module variable
    assigned), or the "... not found." exception of a required substring
    that no file name contains: the look-up of the logger level never
    leaves its table.  In the second case logging has been initialised,
    the paths found before the missing one are already stored, and the
    thing name and the region are still unset. *)
Theorem arg_check_failure w g e :
  value (arg_check w g) = Raise e ->
  (parse_args w = Raise e /\ arg_check w g = mkOut [] g (Raise e)) \/
  (exists args missing,
     parse_args w = Ok args /\
     In missing required_names /\ locate w missing = None /\
     e = not_found missing /\
     trace (arg_check w g) =
       [EvInitLogging (verbosity args); EvSetLevel (logger_level (verbosity args))] /\
     device_name (globals_after (arg_check w g)) = device_name g /\
     region (globals_after (arg_check w g)) = region g /\
     (forall key, locate w "private.key" = Some key ->
        private_key_path (globals_after (arg_check w g)) = Some (cert_path w key))).
Proof.
  rewrite arg_check_run.
  destruct (parse_args w) as [args|x].
  2:{ cbn [value]. intros H. injection H as <-. left. split; reflexivity. }
  cbv zeta. intros H. right. exists args.
  destruct (locate w "private.key") as [key|] eqn:Hk.
  2:{ cbn [value] in H. injection H as <-. exists "private.key"%string.
      repeat split; try reflexivity; auto.
      - now left.
      - discriminate. }
  destruct (locate w "cert.pem") as [cert|] eqn:Hc.
  2:{ cbn [value] in H. injection H as <-. exists "cert.pem"%string.
      repeat split; try reflexivity; auto.
      - right; now left.
      - intros key' H'. now injection H' as <-. }
  destruct (locate w "AmazonRootCA1.pem") as [ca|] eqn:Ha.
  2:{ cbn [value] in H. injection H as <-. exists "AmazonRootCA1.pem"%string.
      repeat split; try reflexivity; auto.
      - right; right; now left.
      - intros key' H'. now injection H' as <-. }
  discriminate.
Qed.

Lemma arg_check_failure_witness :
  arg_check Walks.no_thing_name initial_globals =
    mkOut [] initial_globals (Raise (SystemExit (ExitInt 2))) /\
  (let w := Sample.world_with Sample.response ["alert.private.key"] in
   private_key_path (globals_after (arg_check w initial_globals)) =
     Some "/home/pi/alert/certs//alert.private.key"%string /\
   device_name (globals_after (arg_check w initial_globals)) = None).
Proof.
  split.
  - destruct (@arg_check_failure Walks.no_thing_name initial_globals
                (SystemExit (ExitInt 2))) as [[_ Hrun]|(args & missing & Hp & _)].
    + reflexivity.
    + exact Hrun.
    + discriminate.
  - intros w.
    destruct (@arg_check_failure w initial_globals (not_found "cert.pem"))
      as [[Hp _]|(args & missing & _ & _ & _ & _ & _ & Hname & _ & Hkey)].
    + reflexivity.
    + discriminate.
    + split; [apply Hkey; reflexivity | exact Hname].
Defined.

(** ** The fallback loop, for every world *)

Section LoopShape.

Variable w : world.
Variable g : globals.
Variable client_bootstrap : ClientBootstrap.

Let attempt (c : candidate) : list event := trace (try_one w client_bootstrap c g).

Let run (l : list candidate) : outcome (option Connection) :=
  for_each (try_one w client_bootstrap) l g.

(** The loop runs the body on a prefix of the list, one candidate after
    the other; every candidate of the prefix but the last has failed, and
    the last one too when the loop falls through. *)
Lemma loop_shape l :
  exists n,
    (n <= length l)%nat /\
    trace (run l) = flat_map attempt (firstn n l) /\
    (forall j c, (S j < n)%nat -> nth_error l j = Some c ->
                 exists e, verdict_of w g client_bootstrap c = Fails e) /\
    match value (run l) with
    | Ok None =>
        n = length l /\
        forall c, In c l -> exists e, verdict_of w g client_bootstrap c = Fails e
    | Ok (Some conn) =>
        exists c, nth_error l (pred n) = Some c /\ (0 < n)%nat /\
                  verdict_of w g client_bootstrap c = Connects conn
    | Raise e =>
        exists c, nth_error l (pred n) = Some c /\ (0 < n)%nat /\
                  verdict_of w g client_bootstrap c = Propagates e
    end.
Proof.
  induction l as [|c rest IH].
  - exists 0%nat. split; [apply Nat.le_refl|]. split; [reflexivity|]. split.
    + intros j c Hj. lia.
    + split; [reflexivity|]. intros c [].
  - unfold run, attempt in *.
    destruct (verdict_of w g client_bootstrap c) as [conn|e|e] eqn:Hv.
    + exists 1%nat.
      rewrite (@run_connects_cons w g client_bootstrap c rest conn Hv).
      cbn [value trace firstn flat_map length pred nth_error].
      rewrite app_nil_r. split; [lia|]. split; [reflexivity|]. split.
      * intros j c' Hj. lia.
      * exists c. split; [reflexivity|]. split; [lia | exact Hv].
    + destruct IH as (n & Hn & Ht & Hbefore & Hlast). exists (S n).
      rewrite (@run_fails_cons w g client_bootstrap c rest e Hv).
      rewrite trace_prepend, value_prepend, Ht.
      cbn [firstn flat_map length]. split; [lia|]. split; [reflexivity|]. split.
      * intros j c' Hj Hnth. destruct j as [|j].
        -- injection Hnth as <-. now exists e.
        -- apply (Hbefore j c'); [lia | exact Hnth].
      * destruct (value (for_each (try_one w client_bootstrap) rest g)) as [[conn|]|e'].
        -- destruct Hlast as (c' & Hnth & Hpos & Hc'). exists c'.
           split; [|split; [lia | exact Hc']].
           destruct n; [lia | exact Hnth].
        -- destruct Hlast as [-> Hall]. split; [reflexivity|].
           intros c' [<-|Hin]; [now exists e | now apply Hall].
        -- destruct Hlast as (c' & Hnth & Hpos & Hc'). exists c'.
           split; [|split; [lia | exact Hc']].
           destruct n; [lia | exact Hnth].
    + exists 1%nat.
      rewrite (@run_propagates_cons w g client_bootstrap c rest e Hv).
      cbn [value trace firstn flat_map length pred nth_error].
      rewrite app_nil_r. split; [lia|]. split; [reflexivity|]. split.
      * intros j c' Hj. lia.
      * exists c. split; [reflexivity|]. split; [lia | exact Hv].
Qed.

Lemma attempts_flat_map l :
  attempts (flat_map attempt l) = map label l.
Proof.
  induction l as [|c rest IH]; [reflexivity|].
  cbn [flat_map map]. unfold attempt at 1.
  now rewrite attempts_app, attempts_try_one, IH.
Qed.

Lemma in_attempt e c :
  In e (attempt c) ->
  e = trying c \/ In e (transport_events w g client_bootstrap c) \/
  e = EvPrint "Connected!" [] \/ exists x, e = failed x.
Proof.
  unfold attempt. rewrite try_one_spec.
  destruct (verdict_of w g client_bootstrap c) as [conn|x|x]; cbn [trace];
    intros [<-|Hin]; auto.
  - apply in_app_or in Hin. destruct Hin as [Hin|[<-|[]]]; auto.
  - apply in_app_or in Hin. destruct Hin as [Hin|[<-|[]]]; eauto.
Qed.

End LoopShape.

Lemma trace_after_loops (o : outcome (option Connection)) :
  trace (after_loops o) =
  trace o ++ match value o with
             | Ok None => [EvSysExit (ExitStr "All connection attempts failed")]
             | _ => []
             end.
Proof.
  unfold after_loops. destruct (value o) as [[conn|]|e]; cbn [trace];
    now rewrite ?app_nil_r.
Qed.

Lemma value_after_loops (o : outcome (option Connection)) :
  value (after_loops o) =
  match value o with
  | Ok (Some conn) => Ok conn
  | Ok None => Raise (SystemExit (ExitStr "All connection attempts failed"))
  | Raise e => Raise e
  end.
Proof. unfold after_loops. now destruct (value o) as [[conn|]|e]. Qed.

Lemma globals_after_loops (o : outcome (option Connection)) :
  globals_after (after_loops o) = globals_after o.
Proof. unfold after_loops. now destruct (value o) as [[conn|]|e]. Qed.

(** ** [discover_gg_host], for every world *)

(** X6. A failure of set-up or of discovery has no fallback: whatever
    exception the construction of the TLS context, the construction of
    the discovery client or the discovery future raises leaves
    [discover_gg_host] unchanged, also one derived from [Exception]; the
    TLS failure comes before anything is logged, and in all three cases
    no candidate is announced and the transport is not called. *)
Theorem discover_gg_host_discovery_fails w g e :
  (create_client_with_mtls_from_path w (certtificate_path g) (private_key_path g) = Some e ->
   discover_gg_host w g = mkOut [] g (Raise e)) /\
  (create_client_with_mtls_from_path w (certtificate_path g) (private_key_path g) = None ->
   discovery_client_init w (client_of g) = Some e ->
   discover_gg_host w g =
     mkOut [EvLog INFO "Performing greengrass discovery..." []] g (Raise e)) /\
  (create_client_with_mtls_from_path w (certtificate_path g) (private_key_path g) = None ->
   discovery_client_init w (client_of g) = None ->
   discover w (client_of g) (device_name g) = Raise e ->
   discover_gg_host w g =
     mkOut [EvLog INFO "Performing greengrass discovery..." [];
            EvDiscover (client_of g) (device_name g);
            EvFutureResult None] g (Raise e)) /\
  ((forall r, ~ discovery_answers w g r) ->
   attempts (trace (discover_gg_host w g)) = [] /\
   transport_calls (trace (discover_gg_host w g)) = []).
Proof.
  rewrite discover_gg_host_cases. repeat split.
  - now intros ->.
  - now intros -> ->.
  - now intros -> -> ->.
  - destruct (create_client_with_mtls_from_path w _ _) eqn:Ht; [reflexivity|].
    destruct (discovery_client_init w (client_of g)) eqn:Hi; [reflexivity|].
    destruct (discover w (client_of g) (device_name g)) as [r|x] eqn:Hd; [|reflexivity].
    exfalso. apply (H r). now repeat split.
  - destruct (create_client_with_mtls_from_path w _ _) eqn:Ht; [reflexivity|].
    destruct (discovery_client_init w (client_of g)) eqn:Hi; [reflexivity|].
    destruct (discover w (client_of g) (device_name g)) as [r|x] eqn:Hd; [|reflexivity].
    exfalso. apply (H r). now repeat split.
Qed.

Lemma discover_gg_host_discovery_fails_witness :
  discover_gg_host Walks.unreachable Sample.ready =
    mkOut [EvLog INFO "Performing greengrass discovery..." [];
           EvDiscover (client_of Sample.ready) (device_name Sample.ready);
           EvFutureResult None] Sample.ready
          (Raise (Exc "DiscoveryException" "Error during discover call")) /\
  discover_gg_host (Walks.nested Sample.response) Sample.ready =
    mkOut [] Sample.ready
          (Raise (Exc "FileNotFoundError" "[Errno 2] No such file or directory")).
Proof.
  split.
  - destruct (@discover_gg_host_discovery_fails Walks.unreachable Sample.ready
                (Exc "DiscoveryException" "Error during discover call"))
      as (_ & _ & Hrun & _).
    apply Hrun; reflexivity.
  - destruct (@discover_gg_host_discovery_fails (Walks.nested Sample.response)
                Sample.ready
                (Exc "FileNotFoundError" "[Errno 2] No such file or directory"))
      as (Hrun & _).
    apply Hrun; reflexivity.
Defined.

Lemma globals_discover_gg_host w g :
  globals_after (discover_gg_host w g) = g.
Proof.
  rewrite discover_gg_host_cases.
  destruct (create_client_with_mtls_from_path w _ _); [reflexivity|].
  destruct (discovery_client_init w (client_of g)); [reflexivity|].
  destruct (discover w (client_of g) (device_name g)) as [r|e]; [|reflexivity].
  rewrite globals_prepend, globals_after_loops. apply run_globals.
Qed.

(** X7. [discover_gg_host] reads the module variables and never assigns
    one: they are the same after it as before, however it ends, and so
    are those that [try_candidate] sees from one attempt to the next. *)
Theorem discover_gg_host_keeps_globals w g client_bootstrap c :
  globals_after (discover_gg_host w g) = g /\
  globals_after (try_one w client_bootstrap c g) = g.
Proof.
  split; [apply globals_discover_gg_host | apply globals_try_one].
Qed.

Lemma failures_of_prefix w g client_bootstrap : forall n l,
  (forall j c, (S j < n)%nat -> nth_error l j = Some c ->
               exists e, verdict_of w g client_bootstrap c = Fails e) ->
  (n <= length l)%nat ->
  (length (failure_reasons
             (flat_map (fun c => trace (try_one w client_bootstrap c g)) (firstn n l)))
   <= n)%nat /\
  (n <= S (length (failure_reasons
             (flat_map (fun c => trace (try_one w client_bootstrap c g)) (firstn n l)))))%nat.
Proof.
  induction n as [|n IHn]; intros l Hbefore Hn.
  - cbn. lia.
  - destruct l as [|c rest]; [cbn in Hn; lia|].
    cbn [firstn flat_map]. rewrite failure_reasons_app, length_app.
    rewrite failure_reasons_try_one.
    destruct (IHn rest) as [H1 H2].
    { intros j c' Hj Hnth. apply (Hbefore (S j) c'); [lia | exact Hnth]. }
    { cbn in Hn. lia. }
    destruct n as [|n'].
    + cbn [firstn flat_map failure_reasons length Nat.add] in *.
      destruct (verdict_of w g client_bootstrap c); cbn [length]; lia.
    + destruct (Hbefore 0%nat c) as [e He]; [lia | reflexivity |].
      rewrite He. cbn [length]. lia.
Qed.

(** X8. Once set-up has succeeded and discovery has answered, the
    candidates announced are always
    a prefix of the candidate list, in its order; every announced
    candidate but possibly the last is printed as a failure; and no
    exception derived from [Exception] leaves [discover_gg_host]: it
    returns a connection, exits through [sys.exit], or passes on an
    exception that [except Exception] does not catch. *)
Theorem discover_gg_host_tries_a_prefix w g discover_response :
  discovery_answers w g discover_response ->
  (exists n,
     (n <= length (candidates discover_response))%nat /\
     attempts (trace (discover_gg_host w g)) =
       map label (firstn n (candidates discover_response)) /\
     (length (failure_reasons (trace (discover_gg_host w g))) <= n)%nat /\
     (n <= S (length (failure_reasons (trace (discover_gg_host w g)))))%nat) /\
  (forall e, value (discover_gg_host w g) = Raise e -> is_Exception e = false).
Proof.
  intros Hd. rewrite (@discover_gg_host_run w g discover_response Hd).
  rewrite trace_prepend, value_prepend, trace_after_loops, value_after_loops.
  set (l := candidates discover_response).
  destruct (loop_shape w g the_bootstrap l) as (n & Hn & Ht & Hbefore & Hlast).
  split.
  - exists n. split; [exact Hn|].
    rewrite !attempts_app, !failure_reasons_app, attempts_discovery_events,
      failure_reasons_discovery_events, Ht, attempts_flat_map.
    cbn [app].
    assert (Hno : forall (v : result (option Connection)),
               attempts (match v with
                         | Ok None => [EvSysExit (ExitStr "All connection attempts failed")]
                         | _ => []
                         end) = [] /\
               failure_reasons (match v with
                         | Ok None => [EvSysExit (ExitStr "All connection attempts failed")]
                         | _ => []
                         end) = []).
    { intros [[conn|]|e]; split; reflexivity. }
    destruct (Hno (value (for_each (try_one w the_bootstrap) l g))) as [-> ->].
    rewrite !app_nil_r. split; [reflexivity|].
    exact (@failures_of_prefix w g the_bootstrap n l Hbefore Hn).
  - intros e.
    destruct (value (for_each (try_one w the_bootstrap) l g)) as [[conn|]|x] eqn:Hv.
    + discriminate.
    + intros H. now injection H as <-.
    + intros H. injection H as <-.
      apply (run_swallows_exceptions w g the_bootstrap l). exact Hv.
Qed.

Lemma discover_gg_host_tries_a_prefix_witness :
  exists n,
    (n <= 3)%nat /\
    attempts (trace (discover_gg_host (Walks.interrupted Sample.response)
                                      Sample.ready)) =
      map label (firstn n (candidates Sample.response)).
Proof.
  destruct (@discover_gg_host_tries_a_prefix (Walks.interrupted Sample.response)
              Sample.ready Sample.response) as ((n & Hn & Ha & _) & _).
  - repeat split; reflexivity.
  - exists n. split; [exact Hn | exact Ha].
Defined.

Lemma in_firstn {A} (x : A) : forall n l, In x (firstn n l) -> In x l.
Proof.
  induction n as [|n IH]; intros [|y l]; cbn [firstn]; try contradiction.
  intros [<-|Hin]; [now left | right; now apply IH].
Qed.

(** The transport calls of a run of [discover_gg_host] are those of the
    attempts on candidates of the response, each attempt's calls being
    in the run as a whole. *)
Lemma transport_call_origin w g e :
  In e (trace (discover_gg_host w g)) ->
  is_transport_call e = true ->
  exists r c,
    discover w (client_of g) (device_name g) = Ok r /\
    In c (candidates r) /\
    In e (transport_events w g the_bootstrap c) /\
    incl (transport_events w g the_bootstrap c) (trace (discover_gg_host w g)).
Proof.
  rewrite discover_gg_host_cases.
  destruct (create_client_with_mtls_from_path w _ _); [intros []|].
  destruct (discovery_client_init w (client_of g)).
  { cbn [trace]. intros [<-|[]]; discriminate. }
  destruct (discover w (client_of g) (device_name g)) as [r|x] eqn:Hd.
  2:{ cbn [trace]. intros [<-|[<-|[<-|[]]]]; discriminate. }
  rewrite trace_prepend, trace_after_loops.
  destruct (loop_shape w g the_bootstrap (candidates r)) as (n & _ & Ht & _).
  rewrite Ht. intros Hin Hcall.
  apply in_app_or in Hin. destruct Hin as [Hin|Hin].
  { cbn in Hin. destruct Hin as [<-|[<-|[<-|[<-|[]]]]]; discriminate. }
  apply in_app_or in Hin. destruct Hin as [Hin|Hin].
  2:{ destruct (value _) as [[conn|]|x]; cbn in Hin;
        try contradiction. destruct Hin as [<-|[]]. discriminate. }
  apply in_flat_map in Hin. destruct Hin as (c & Hc & Hin).
  exists r, c. split; [reflexivity|]. split; [now apply in_firstn in Hc|].
  assert (Hsub : incl (transport_events w g the_bootstrap c)
                      (trace (try_one w the_bootstrap c g))).
  { rewrite try_one_spec. intros e' He'.
    destruct (verdict_of w g the_bootstrap c); cbn [trace]; right;
      try (apply in_or_app; now left); exact He'. }
  split.
  - apply in_attempt in Hin. destruct Hin as [->|[Hin|[->|[x ->]]]].
    + now rewrite trying_not_transport in Hcall.
    + exact Hin.
    + discriminate.
    + discriminate.
  - intros e' He'. apply in_or_app. right. apply in_or_app. left.
    apply in_flat_map. exists c. split; [exact Hc | now apply Hsub].
Qed.

(** X9. Every connection [discover_gg_host] asks the builder for is made
    for a candidate of the response with the first certificate authority
    of its group, the certificate and key paths and the thing name of the
    module variables, a persistent session ([clean_session] false), a
    keep-alive of 6 seconds and the two lifecycle callbacks of the
    program. *)
Theorem every_build_from_a_candidate w g kw :
  In (EvBuild kw) (trace (discover_gg_host w g)) ->
  (exists r c ca rest,
     discover w (client_of g) (device_name g) = Ok r /\
     In c (candidates r) /\
     certificate_authorities (fst (fst c)) = ca :: rest /\
     kw = kwargs_for g the_bootstrap (snd c) ca) /\
  kw_clean_session kw = false /\
  kw_keep_alive_secs kw = 6%Z /\
  kw_client_id kw = device_name g /\
  kw_cert_filepath kw = certtificate_path g /\
  kw_pri_key_filepath kw = private_key_path g /\
  kw_on_connection_interrupted kw = cb_on_connection_interupted /\
  kw_on_connection_resumed kw = cb_on_connection_resumed.
Proof.
  intros Hin.
  destruct (@transport_call_origin w g (EvBuild kw) Hin eq_refl)
    as (r & c & Hd & Hc & He & _).
  assert (Hkw : exists ca rest,
             certificate_authorities (fst (fst c)) = ca :: rest /\
             kw = kwargs_for g the_bootstrap (snd c) ca).
  { destruct c as [[gg_group gg_core] connectivity_info].
    unfold transport_events in He. cbn [fst snd].
    destruct (certificate_authorities gg_group) as [|ca rest]; [contradiction|].
    exists ca, rest. split; [reflexivity|].
    destruct (mtls_from_path w _).
    - destruct He as [H|[]]. now injection H.
    - destruct He as [H|[H|[H|[]]]]; try discriminate. now injection H. }
  destruct Hkw as (ca & rest & Hca & ->).
  split; [now exists r, c, ca, rest|]. repeat split; reflexivity.
Qed.

Lemma every_build_from_a_candidate_witness :
  kw_clean_session (kwargs_for Sample.ready the_bootstrap Sample.hostA
                      "-----BEGIN CERTIFICATE-----") = false.
Proof.
  destruct (@every_build_from_a_candidate
              (Sample.world_with Sample.response Sample.files) Sample.ready
              (kwargs_for Sample.ready the_bootstrap Sample.hostA
                 "-----BEGIN CERTIFICATE-----")) as (_ & Hclean & _).
  - cbn. right. right. right. right. right. now left.
  - exact Hclean.
Defined.

(** X10. [connect] is called only on a connection the builder has just
    returned: every connect call of a run follows a builder call with the
    same keyword arguments, and the builder did not raise for them. *)
Theorem connect_only_after_build w g kw :
  In (EvConnect kw) (trace (discover_gg_host w g)) ->
  In (EvBuild kw) (trace (discover_gg_host w g)) /\
  mtls_from_path w kw = None.
Proof.
  intros Hin.
  destruct (@transport_call_origin w g (EvConnect kw) Hin eq_refl)
    as (r & c & _ & _ & He & Hincl).
  assert (Hb : In (EvBuild kw) (transport_events w g the_bootstrap c) /\
               mtls_from_path w kw = None).
  { destruct c as [[gg_group gg_core] connectivity_info].
    unfold transport_events in *.
    destruct (certificate_authorities gg_group) as [|ca rest]; [contradiction|].
    destruct (mtls_from_path w _) eqn:Hm.
    - destruct He as [H|[]]. discriminate.
    - destruct He as [H|[H|[H|[]]]]; try discriminate.
      injection H as <-. split; [now left | exact Hm]. }
  destruct Hb as [Hb Hm]. split; [now apply Hincl | exact Hm].
Qed.

Lemma connect_only_after_build_witness :
  mtls_from_path (Sample.world_with Sample.response Sample.files)
    (kwargs_for Sample.ready the_bootstrap Sample.hostB
       "-----BEGIN CERTIFICATE-----") = None.
Proof.
  destruct (@connect_only_after_build
              (Sample.world_with Sample.response Sample.files) Sample.ready
              (kwargs_for Sample.ready the_bootstrap Sample.hostB
                 "-----BEGIN CERTIFICATE-----")) as (_ & Hm).
  - cbn. do 11 right. now left.
  - exact Hm.
Defined.

Lemma connects_accepted w g client_bootstrap c conn :
  verdict_of w g client_bootstrap c = Connects conn ->
  mtls_from_path w (conn_kwargs conn) = None /\
  connect w (conn_kwargs conn) = None /\
  conn_topics conn = [].
Proof.
  destruct c as [[gg_group gg_core] connectivity_info]. unfold verdict_of.
  destruct (certificate_authorities gg_group) as [|ca rest]; [discriminate|].
  destruct (mtls_from_path w _) as [e|] eqn:Hm.
  { unfold verdict_of_exception. destruct (is_Exception e); discriminate. }
  destruct (connect w _) as [e|] eqn:Hc.
  { unfold verdict_of_exception. destruct (is_Exception e); discriminate. }
  intros H. injection H as <-. cbn [conn_kwargs conn_topics]. auto.
Qed.

Lemma returned_connection_origin w g conn :
  value (discover_gg_host w g) = Ok conn ->
  exists r c,
    discover w (client_of g) (device_name g) = Ok r /\
    In c (candidates r) /\
    verdict_of w g the_bootstrap c = Connects conn.
Proof.
  rewrite discover_gg_host_cases.
  destruct (create_client_with_mtls_from_path w _ _); [discriminate|].
  destruct (discovery_client_init w (client_of g)); [discriminate|].
  destruct (discover w (client_of g) (device_name g)) as [r|x] eqn:Hd; [|discriminate].
  rewrite value_prepend, value_after_loops.
  destruct (loop_shape w g the_bootstrap (candidates r)) as (n & _ & _ & _ & Hlast).
  destruct (value (for_each (try_one w the_bootstrap) (candidates r) g))
    as [[conn'|]|x]; try discriminate.
  intros H. injection H as ->.
  destruct Hlast as (c & Hnth & _ & Hv).
  exists r, c. split; [reflexivity|]. split; [|exact Hv].
  eapply nth_error_In; eassumption.
Qed.

(** X11. A connection returned by [discover_gg_host] is always one the
    transport accepted: it was built for a candidate of the response,
    neither the builder nor the connect future raised for it, and it
    holds no subscription yet. *)
Theorem returned_connection_was_accepted w g conn :
  value (discover_gg_host w g) = Ok conn ->
  (exists r c,
     discover w (client_of g) (device_name g) = Ok r /\
     In c (candidates r) /\
     verdict_of w g the_bootstrap c = Connects conn) /\
  mtls_from_path w (conn_kwargs conn) = None /\
  connect w (conn_kwargs conn) = None /\
  conn_topics conn = [].
Proof.
  intros H. destruct (returned_connection_origin _ _ H) as (r & c & Hd & Hc & Hv).
  split; [now exists r, c|].
  eapply connects_accepted; eassumption.
Qed.

Lemma returned_connection_was_accepted_witness :
  connect (Sample.world_with Sample.response Sample.files)
    (kwargs_for Sample.ready the_bootstrap Sample.hostB
       "-----BEGIN CERTIFICATE-----") = None.
Proof.
  destruct (@returned_connection_was_accepted
              (Sample.world_with Sample.response Sample.files) Sample.ready
              {| conn_kwargs := kwargs_for Sample.ready the_bootstrap Sample.hostB
                                  "-----BEGIN CERTIFICATE-----";
                 conn_topics := [] |}) as (_ & _ & Hc & _).
  - reflexivity.
  - exact Hc.
Defined.

Lemma loop_stops_at_propagation w g client_bootstrap l : forall k c e,
  nth_error l k = Some c ->
  (forall j c', (j < k)%nat -> nth_error l j = Some c' ->
                exists x, verdict_of w g client_bootstrap c' = Fails x) ->
  verdict_of w g client_bootstrap c = Propagates e ->
  value (for_each (try_one w client_bootstrap) l g) = Raise e /\
  attempts (trace (for_each (try_one w client_bootstrap) l g)) =
    map label (firstn (S k) l) /\
  length (failure_reasons (trace (for_each (try_one w client_bootstrap) l g))) = k.
Proof.
  induction l as [|c0 rest IH]; intros k c e Hk Hbefore Hc.
  - destruct k; discriminate.
  - destruct k as [|k].
    + injection Hk as ->.
      rewrite (@run_propagates_cons w g client_bootstrap c rest e Hc).
      cbn [value trace].
      rewrite attempts_try_one, failure_reasons_try_one, Hc.
      repeat split; reflexivity.
    + destruct (Hbefore 0%nat c0) as [x Hx]; [lia | reflexivity |].
      rewrite (@run_fails_cons w g client_bootstrap c0 rest x Hx).
      destruct (IH k c e Hk) as (Hv & Ha & Hf); [|exact Hc|].
      { intros j c' Hj Hn. apply (Hbefore (S j) c'); [lia | exact Hn]. }
      rewrite value_prepend, trace_prepend.
      rewrite attempts_app, failure_reasons_app, attempts_try_one,
        failure_reasons_try_one, Hx, Ha, length_app, Hf.
      repeat split; auto.
Qed.

Lemma exit_calls_try_one w client_bootstrap c g :
  exit_calls (trace (try_one w client_bootstrap c g)) = [].
Proof.
  rewrite try_one_spec.
  assert (Ht : exit_calls (transport_events w g client_bootstrap c) = []).
  { destruct c as [[gg_group gg_core] connectivity_info]. unfold transport_events.
    destruct (certificate_authorities gg_group); [reflexivity|].
    destruct (mtls_from_path w _); reflexivity. }
  assert (Hy : exit_calls [trying c] = []).
  { unfold trying. destruct (label c) as [[arn host] p]. reflexivity. }
  destruct (verdict_of w g client_bootstrap c); cbn [trace];
    change (trying c :: ?t) with ([trying c] ++ t);
    rewrite ?exit_calls_app, Hy, Ht; reflexivity.
Qed.

Lemma exit_calls_loop w client_bootstrap g l :
  exit_calls (trace (for_each (try_one w client_bootstrap) l g)) = [].
Proof.
  destruct (loop_shape w g client_bootstrap l) as (n & _ & -> & _).
  induction (firstn n l) as [|c rest IH]; [reflexivity|].
  cbn [flat_map]. now rewrite exit_calls_app, exit_calls_try_one, IH.
Qed.

(** X12. After set-up and discovery have succeeded, an exception that
    [except Exception] does not catch (a [KeyboardInterrupt], a
    [SystemExit]) raised by the attempt on the candidate at position
    [k], all earlier candidates having failed, ends
    [discover_gg_host] with that exception: it is not printed as a
    failure, the candidates after [k] are not tried, and [sys.exit] is
    not reached. *)
Theorem discover_gg_host_passes_on_base_exceptions w g discover_response k c e :
  discovery_answers w g discover_response ->
  nth_error (candidates discover_response) k = Some c ->
  (forall j c', (j < k)%nat -> nth_error (candidates discover_response) j = Some c' ->
                exists x, verdict_of w g the_bootstrap c' = Fails x) ->
  verdict_of w g the_bootstrap c = Propagates e ->
  value (discover_gg_host w g) = Raise e /\
  attempts (trace (discover_gg_host w g)) =
    map label (firstn (S k) (candidates discover_response)) /\
  length (failure_reasons (trace (discover_gg_host w g))) = k /\
  exit_calls (trace (discover_gg_host w g)) = [].
Proof.
  intros Hd Hk Hbefore Hc.
  rewrite (@discover_gg_host_run w g discover_response Hd).
  destruct (@loop_stops_at_propagation w g the_bootstrap (candidates discover_response)
              k c e Hk Hbefore Hc) as (Hv & Ha & Hf).
  rewrite value_prepend, trace_prepend, value_after_loops, trace_after_loops, Hv.
  rewrite app_nil_r, attempts_app, failure_reasons_app, exit_calls_app,
    attempts_discovery_events, failure_reasons_discovery_events, exit_calls_loop.
  repeat split; auto.
Qed.

Lemma discover_gg_host_passes_on_base_exceptions_witness :
  let w := Walks.interrupted Sample.response in
  value (discover_gg_host w Sample.ready) = Raise KeyboardInterrupt /\
  attempts (trace (discover_gg_host w Sample.ready)) =
    [("arn:aws:iot:core1", "hostA", 1234%Z); ("arn:aws:iot:core1", "hostB", 5678%Z)] /\
  length (failure_reasons (trace (discover_gg_host w Sample.ready))) = 1%nat.
Proof.
  intros w.
  destruct (@discover_gg_host_passes_on_base_exceptions w Sample.ready
              Sample.response 1 (Sample.group1, Sample.core1, Sample.hostB)
              KeyboardInterrupt) as (Hv & Ha & Hf & _).
  - repeat split; reflexivity.
  - reflexivity.
  - intros j c' Hj Hn. destruct j as [|j]; [|lia].
    injection Hn as <-. exists Sample.timed_out. reflexivity.
  - reflexivity.
  - repeat split; assumption.
Defined.

(** X13. Of the certificate authorities of a group only the first is
    used: the attempt on a candidate runs the same for two groups whose
    lists start with the same authority (or are both empty), whatever
    follows in the lists and whatever cores the groups hold. *)
Theorem only_first_certificate_authority_used
    w client_bootstrap gg_group gg_group' gg_core connectivity_info g :
  hd_error (certificate_authorities gg_group) =
    hd_error (certificate_authorities gg_group') ->
  try_candidate w client_bootstrap gg_group gg_core connectivity_info g =
  try_candidate w client_bootstrap gg_group' gg_core connectivity_info g.
Proof.
  intros Hhd.
  change (try_one w client_bootstrap (gg_group, gg_core, connectivity_info) g =
          try_one w client_bootstrap (gg_group', gg_core, connectivity_info) g).
  rewrite !try_one_spec. unfold verdict_of, transport_events, trying, label.
  destruct (certificate_authorities gg_group) as [|ca rest],
           (certificate_authorities gg_group') as [|ca' rest'];
    cbn [hd_error] in Hhd; try discriminate; [reflexivity|].
  injection Hhd as <-. reflexivity.
Qed.

Lemma only_first_certificate_authority_used_witness :
  let w := Sample.world_with Sample.response Sample.files in
  try_candidate w the_bootstrap Sample.group1 Sample.core1 Sample.hostB initial_globals =
  try_candidate w the_bootstrap Walks.group1_two_cas Sample.core1 Sample.hostB
                initial_globals.
Proof.
  intros w.
  apply (@only_first_certificate_authority_used w the_bootstrap Sample.group1
           Walks.group1_two_cas Sample.core1 Sample.hostB initial_globals).
  reflexivity.
Defined.

Lemma group_candidates_hollow gg_group :
  (forall gg_core, In gg_core (cores gg_group) -> connectivity gg_core = []) ->
  group_candidates gg_group = [].
Proof.
  unfold group_candidates. intros H.
  induction (cores gg_group) as [|gg_core rest IH]; [reflexivity|].
  cbn [flat_map]. rewrite (H gg_core (or_introl eq_refl)). cbn [map app].
  apply IH. intros c Hc. apply H. now right.
Qed.

(** X14. A group without cores, or whose cores have no connectivity
    entry, is passed over in silence: the loops run exactly as on the
    response without that group (nothing is printed for it and it is not
    counted as a failure). *)
Theorem hollow_group_is_skipped w client_bootstrap before gg_group after g :
  (forall gg_core, In gg_core (cores gg_group) -> connectivity gg_core = []) ->
  try_all w client_bootstrap {| gg_groups := before ++ gg_group :: after |} g =
  try_all w client_bootstrap {| gg_groups := before ++ after |} g.
Proof.
  intros H. rewrite !try_all_candidates. unfold candidates. cbn [gg_groups].
  rewrite !flat_map_app. cbn [flat_map].
  now rewrite (group_candidates_hollow _ H).
Qed.

Lemma hollow_group_is_skipped_witness :
  let w := Sample.world_with Sample.response Sample.files in
  try_all w the_bootstrap {| gg_groups := [Walks.hollow_group; Sample.group1] |}
          initial_globals =
  try_all w the_bootstrap Sample.response initial_globals.
Proof.
  intros w.
  apply (@hollow_group_is_skipped w the_bootstrap [] Walks.hollow_group
           [Sample.group1] initial_globals).
  intros gg_core [<-|[]]. reflexivity.
Defined.

(** ** Callbacks and shutdown, for every argument *)


(** X16. [exit_sample] never disconnects a connection, whatever it is
    given: with a connection in [mqtt_connection] it logs and exits with
    status 0 without a call of [disconnect]; with [mqtt_connection]
    unset it ends in [AttributeError] before [sys.exit].  Given an
    instance of a class derived from [Exception] it first logs an error
    and prints the traceback; given a string, or an exception object that
    is no [Exception] (a [KeyboardInterrupt], a [SystemExit]), it logs
    "Exiting: %s" with that value. *)
Theorem exit_sample_never_disconnects msg_or_exception g :
  let announced :=
    match msg_or_exception with
    | IsException e =>
        if is_Exception e
        then [EvLog ERROR "Exiting sample due to exception." []; EvPrintException e]
        else [EvLog INFO "Exiting: %s" [VExn e]]
    | IsStr s => [EvLog INFO "Exiting: %s" [VStr s]]
    end in
  exit_sample msg_or_exception g =
    match mqtt_connection g with
    | Some _ =>
        mkOut (announced ++ [EvSysExit (ExitInt 0)]) g (Raise (SystemExit (ExitInt 0)))
    | None =>
        mkOut (announced ++ [EvLog INFO "Disconnecting..." []]) g
              (Raise (Exc "AttributeError" "'NoneType' object has no attribute 'disconnect'"))
    end /\
  filter is_disconnect (trace (exit_sample msg_or_exception g)) = [].
Proof.
  cbv zeta.
  assert (Hrun : exit_sample msg_or_exception g =
    match mqtt_connection g with
    | Some _ =>
        mkOut (match msg_or_exception with
               | IsException e =>
                   if is_Exception e
                   then [EvLog ERROR "Exiting sample due to exception." [];
                         EvPrintException e]
                   else [EvLog INFO "Exiting: %s" [VExn e]]
               | IsStr s => [EvLog INFO "Exiting: %s" [VStr s]]
               end ++ [EvSysExit (ExitInt 0)]) g (Raise (SystemExit (ExitInt 0)))
    | None =>
        mkOut (match msg_or_exception with
               | IsException e =>
                   if is_Exception e
                   then [EvLog ERROR "Exiting sample due to exception." [];
                         EvPrintException e]
                   else [EvLog INFO "Exiting: %s" [VExn e]]
               | IsStr s => [EvLog INFO "Exiting: %s" [VStr s]]
               end ++ [EvLog INFO "Disconnecting..." []]) g
              (Raise (Exc "AttributeError" "'NoneType' object has no attribute 'disconnect'"))
    end).
  { unfold exit_sample.
    destruct msg_or_exception as [s|e]; [|destruct (is_Exception e)];
      destruct (mqtt_connection g) as [c|] eqn:Hc;
      unfold bind, logger, emit, get_globals, sys_exit, raise, ret, py_not,
        call_disconnect, prepend; cbn; rewrite Hc; reflexivity. }
  split; [exact Hrun|]. rewrite Hrun.
  destruct msg_or_exception as [s|e]; [|destruct (is_Exception e)];
    destruct (mqtt_connection g); reflexivity.
Qed.

(** ** [device_main] *)

Lemma wait_for_events_run fuel g :
  wait_for_events fuel g = mkOut (repeat (EvSleep 1) fuel) g (Ok tt).
Proof.
  induction fuel as [|fuel IH]; [reflexivity|].
  cbn [wait_for_events repeat]. now rewrite bind_emit, IH.
Qed.

(** [device_main], case by case of how its steps end. *)
Lemma device_main_run w fuel g :
  device_main w fuel g =
  let o1 := arg_check w g in
  let g1 := globals_after o1 in
  let o2 := discover_gg_host w g1 in
  match value o1 with
  | Raise e => mkOut (trace o1) g1 (Raise e)
  | Ok _ =>
      match value o2 with
      | Raise e => mkOut (trace o1 ++ trace o2) g1 (Raise e)
      | Ok connection =>
          match subscribe w connection "alert/#" AT_MOST_ONCE with
          | Raise e =>
              mkOut (trace o1 ++ trace o2 ++
                       [EvSubscribe connection "alert/#" AT_MOST_ONCE cb_on_message_received;
                        EvFutureResult None])
                    (set_mqtt_connection (Some connection) g1) (Raise e)
          | Ok granted =>
              mkOut (trace o1 ++ trace o2 ++ subscription_events connection granted
                       ++ repeat (EvSleep 1) fuel)
                    (set_mqtt_connection (Some (subscribed connection)) g1) (Ok tt)
          end
      end
  end.
Proof.
  cbv zeta. unfold device_main.
  destruct (arg_check w g) as [t1 g1 [[]|e]] eqn:H1; cbn [value trace globals_after].
  2:{ now rewrite (@bind_raise _ _ _ _ _ _ _ _ H1). }
  rewrite (@bind_ok _ _ _ _ _ _ _ _ H1).
  pose proof (globals_discover_gg_host w g1) as Hg.
  destruct (discover_gg_host w g1) as [t2 g2 [connection|e]] eqn:H2;
    cbn [globals_after value trace] in *; subst g2.
  2:{ now rewrite (@bind_raise _ _ _ _ _ _ _ _ H2). }
  rewrite (@bind_ok _ _ _ _ _ _ _ _ H2), bind_assign, !bind_emit.
  destruct (subscribe w connection "alert/#" AT_MOST_ONCE) as [granted|e].
  - rewrite bind_lift_ok, bind_assign. unfold print. rewrite bind_emit.
    rewrite wait_for_events_run. unfold subscription_events, subscribed.
    cbn [prepend app set_mqtt_connection]. reflexivity.
  - rewrite bind_lift_raise. reflexivity.
Qed.

Lemma filter_subscribe_arg_check w g :
  filter is_subscribe (trace (arg_check w g)) = [].
Proof.
  rewrite arg_check_run. destruct (parse_args w) as [args|e]; [|reflexivity].
  cbv zeta.
  destruct (locate w "private.key"); [|reflexivity].
  destruct (locate w "cert.pem"); [|reflexivity].
  destruct (locate w "AmazonRootCA1.pem"); reflexivity.
Qed.

Lemma no_subscribe_in_try_one w client_bootstrap c g :
  filter is_subscribe (trace (try_one w client_bootstrap c g)) = [].
Proof.
  rewrite try_one_spec.
  assert (Ht : filter is_subscribe (transport_events w g client_bootstrap c) = []).
  { destruct c as [[gg_group gg_core] connectivity_info]. unfold transport_events.
    destruct (certificate_authorities gg_group); [reflexivity|].
    destruct (mtls_from_path w _); reflexivity. }
  assert (Hy : filter is_subscribe [trying c] = []).
  { unfold trying. destruct (label c) as [[arn host] p]. reflexivity. }
  destruct (verdict_of w g client_bootstrap c); cbn [trace];
    change (trying c :: ?t) with ([trying c] ++ t);
    rewrite ?filter_app, Hy, Ht; reflexivity.
Qed.

Lemma no_subscribe_in_discover_gg_host w g :
  filter is_subscribe (trace (discover_gg_host w g)) = [].
Proof.
  rewrite discover_gg_host_cases.
  destruct (create_client_with_mtls_from_path w _ _); [reflexivity|].
  destruct (discovery_client_init w (client_of g)); [reflexivity|].
  destruct (discover w (client_of g) (device_name g)) as [r|e] eqn:Hd; [|reflexivity].
  rewrite trace_prepend, trace_after_loops.
  destruct (loop_shape w g the_bootstrap (candidates r)) as (n & _ & -> & _).
  rewrite !filter_app.
  assert (Hl : filter is_subscribe
                 (flat_map (fun c => trace (try_one w the_bootstrap c g))
                           (firstn n (candidates r))) = []).
  { induction (firstn n (candidates r)) as [|c rest IH]; [reflexivity|].
    cbn [flat_map]. now rewrite filter_app, no_subscribe_in_try_one, IH. }
  rewrite Hl.
  destruct (value (for_each (try_one w the_bootstrap) (candidates r) g)) as [[c|]|e];
    reflexivity.
Qed.

(** X17. When the certificates are found, [discover_gg_host] returns a
    connection and the broker grants the subscription, [device_main]
    runs its steps in order: logging set-up, discovery and the attempts,
    then one subscription to "alert/#" at [AT_MOST_ONCE] with
    [on_message_received], the "Subscribed" line, and the wait loop;
    [mqtt_connection] then holds that connection with this one
    subscription. *)
Theorem device_main_connects_and_subscribes w fuel g connection granted :
  value (arg_check w g) = Ok tt ->
  value (discover_gg_host w (globals_after (arg_check w g))) = Ok connection ->
  subscribe w connection "alert/#" AT_MOST_ONCE = Ok granted ->
  device_main w fuel g =
    mkOut (trace (arg_check w g)
             ++ trace (discover_gg_host w (globals_after (arg_check w g)))
             ++ subscription_events connection granted
             ++ repeat (EvSleep 1) fuel)
          (set_mqtt_connection (Some (subscribed connection))
                               (globals_after (arg_check w g)))
          (Ok tt) /\
  conn_topics (subscribed connection) = [("alert/#", AT_MOST_ONCE)].
Proof.
  intros H1 H2 H3. rewrite device_main_run. cbv zeta. rewrite H1, H2, H3.
  split; [reflexivity|].
  destruct (returned_connection_origin _ _ H2) as (r & c & _ & _ & Hv).
  destruct (connects_accepted _ _ _ _ Hv) as (_ & _ & Ht).
  unfold subscribed. cbn [conn_topics]. now rewrite Ht.
Qed.

Lemma device_main_connects_and_subscribes_witness :
  let w := Sample.world_with Sample.response Sample.files in
  mqtt_connection (globals_after (device_main w 2 initial_globals)) =
    Some {| conn_kwargs :=
              kwargs_for
                (globals_after (arg_check w initial_globals))
                the_bootstrap Sample.hostB "-----BEGIN CERTIFICATE-----";
            conn_topics := [("alert/#", AT_MOST_ONCE)] |}.
Proof.
  intros w.
  destruct (@device_main_connects_and_subscribes w 2 initial_globals
              {| conn_kwargs :=
                   kwargs_for
                     (globals_after (arg_check w initial_globals))
                     the_bootstrap Sample.hostB "-----BEGIN CERTIFICATE-----";
                 conn_topics := [] |} AT_MOST_ONCE) as (Hrun & _).
  - reflexivity.
  - reflexivity.
  - reflexivity.
  - rewrite Hrun. reflexivity.
Defined.

(** X18. When the subscription is refused (the subscribe future raises),
    [device_main] ends with that exception after the subscribe call: the
    "Subscribed" line is not printed and the wait loop is not entered,
    while [mqtt_connection] already holds the connection. *)
Theorem device_main_subscription_refused w fuel g connection e :
  value (arg_check w g) = Ok tt ->
  value (discover_gg_host w (globals_after (arg_check w g))) = Ok connection ->
  subscribe w connection "alert/#" AT_MOST_ONCE = Raise e ->
  device_main w fuel g =
    mkOut (trace (arg_check w g)
             ++ trace (discover_gg_host w (globals_after (arg_check w g)))
             ++ [EvSubscribe connection "alert/#" AT_MOST_ONCE cb_on_message_received;
                 EvFutureResult None])
          (set_mqtt_connection (Some connection) (globals_after (arg_check w g)))
          (Raise e).
Proof.
  intros H1 H2 H3. rewrite device_main_run. cbv zeta. now rewrite H1, H2, H3.
Qed.

Lemma device_main_subscription_refused_witness :
  let w := Walks.refusing Sample.response in
  value (device_main w 2 initial_globals) =
    Raise (Exc "AwsCrtError" "AWS_ERROR_MQTT_TIMEOUT").
Proof.
  intros w.
  rewrite (@device_main_subscription_refused w 2 initial_globals
             {| conn_kwargs :=
                  kwargs_for
                    (globals_after (arg_check w initial_globals))
                    the_bootstrap Sample.hostB "-----BEGIN CERTIFICATE-----";
                conn_topics := [] |}
             (Exc "AwsCrtError" "AWS_ERROR_MQTT_TIMEOUT")).
  - reflexivity.
  - reflexivity.
  - reflexivity.
  - reflexivity.
Defined.

(** X19. [device_main] subscribes at most once, and only on the
    connection [discover_gg_host] returned after [arg_check] succeeded:
    always to "alert/#", at [AT_MOST_ONCE], with [on_message_received].
    When [arg_check] or [discover_gg_host] ends in an exception there is
    no subscribe call at all. *)
Theorem device_main_subscribes_once w fuel g :
  filter is_subscribe (trace (device_main w fuel g)) =
  match value (arg_check w g),
        value (discover_gg_host w (globals_after (arg_check w g))) with
  | Ok _, Ok connection =>
      [EvSubscribe connection "alert/#" AT_MOST_ONCE cb_on_message_received]
  | _, _ => []
  end.
Proof.
  rewrite device_main_run. cbv zeta.
  pose proof (filter_subscribe_arg_check w g) as Ht1.
  pose proof (no_subscribe_in_discover_gg_host w (globals_after (arg_check w g))) as Ht2.
  destruct (value (arg_check w g)) as [[]|e]; cbn [trace].
  2:{ now rewrite Ht1. }
  destruct (value (discover_gg_host w (globals_after (arg_check w g))))
    as [connection|e]; cbn [trace].
  2:{ now rewrite filter_app, Ht2, Ht1. }
  destruct (subscribe w connection "alert/#" AT_MOST_ONCE) as [granted|e]; cbn [trace];
    rewrite !filter_app, Ht2, Ht1; cbn [filter is_subscribe app]; [|reflexivity].
  unfold subscription_events. cbn [filter is_subscribe app].
  induction fuel as [|fuel IH]; [reflexivity|]. exact IH.
Qed.

(** X20. When [arg_check] succeeds and [discover_gg_host] ends in an
    exception (discovery failed, or [sys.exit] after every candidate
    failed), [device_main] ends with the same exception and
    [mqtt_connection] is what it was before [device_main] ran. *)
Theorem device_main_without_connection w fuel g e :
  value (arg_check w g) = Ok tt ->
  value (discover_gg_host w (globals_after (arg_check w g))) = Raise e ->
  value (device_main w fuel g) = Raise e /\
  mqtt_connection (globals_after (device_main w fuel g)) = mqtt_connection g /\
  trace (device_main w fuel g) =
    trace (arg_check w g)
      ++ trace (discover_gg_host w (globals_after (arg_check w g))).
Proof.
  intros H1 H2. rewrite device_main_run. cbv zeta. rewrite H1, H2.
  cbn [value globals_after trace]. repeat split.
  apply mqtt_connection_arg_check.
Qed.

Lemma device_main_without_connection_witness :
  let w := Sample.dead_world Sample.response in
  value (device_main w 2 initial_globals) =
    Raise (SystemExit (ExitStr "All connection attempts failed")) /\
  mqtt_connection (globals_after (device_main w 2 initial_globals)) = None.
Proof.
  intros w.
  destruct (@device_main_without_connection w 2 initial_globals
              (SystemExit (ExitStr "All connection attempts failed")))
    as (Hv & Hm & _).
  - reflexivity.
  - reflexivity.
  - split; assumption.
Defined.
